(** * Cricket AI Analyzer: the per-frame pipeline, embedded and verified

    A shallow embedding of the stateful per-frame components of the
    analyzer:

    - [ShotSegmenter] (shot_segmenter.py): phase rule and shot state machine;
    - [Coach] (coach.py): the prioritised feedback rules;
    - [SpeedEstimator] (speed_estimator.py): bat-speed EMA and ball-speed
      rolling window;
    - [PoseEngine] (pose_engine.py): joint angle, weight transfer, target
      selection and [process];
    - [HighlightGenerator] (highlight_generator.py), [CSVLogger]
      (csv_logger.py) and [CricketEngine] (engine.py): the two sinks and
      the orchestration of one frame;
    - [VideoWorker] (app.py): the pacing arithmetic of the worker loop.

    Numbers.  Angles handed between components are Python [int]s and are
    modelled as [Z].  Python and NumPy floating-point values are modelled
    in two ways.

    - Over the real numbers ([R]), every finite operation taken to be
      exact, with an explicit not-a-number and infinities ([npfloat]) for
      the division in [calculate_angle], where a special value decides the
      control flow.  This reading is used for what rounding does not
      change: which branch of a state machine is taken, what is stored and
      what is left alone, ranges, symmetry, whether a call returns or
      raises.
    - Over the operations the code calls ([Floating]), with nothing
      assumed of them, for the values that [_bat_speed] and
      [calculate_weight_transfer] return ([SpeedEstimatorF],
      [PoseEngineF]).  These values are rounded or cut to an integer at
      the end, so a rounding error of the arithmetic can show in them, and
      they are stated in the arithmetic that runs the code; concrete
      values are computed in IEEE binary64 ([Binary64]).

    Mutable objects become explicit state passing: a method is a function
    from the state before the call to the returned value and the state
    after it.  A call that can fail returns an [outcome]. *)

From Stdlib Require Import ZArith List String Ascii Bool Lia Reals Lra DecimalString.
From Stdlib Require PrimFloat Uint63 FloatOps SpecFloat DecimalPos DecimalZ.
Import ListNotations.

Set Implicit Arguments.

(** ** Python helpers shared by the components *)

(** [dict.get(key, default)] on an entry that may be absent. *)
Definition get_or {A : Type} (entry : option A) (default : A) : A :=
  match entry with
  | Some v => v
  | None => default
  end.

(** [collections.deque(maxlen=n).append(x)]: the new element goes to the
    right end and, once the capacity is exceeded, elements are dropped from
    the left end. *)
Definition deque_append {A : Type} (maxlen : nat) (d : list A) (x : A) : list A :=
  let d' := d ++ [x] in
  skipn (List.length d' - maxlen) d'.

(** [str(n)] and the [{n}] of an f-string, for an integer. *)
Definition str_of_int (n : Z) : string :=
  NilZero.string_of_int (Z.to_int n).

(** *** Floating-point helpers *)

Definition Rltb (x y : R) : bool := if Rlt_dec x y then true else false.
Definition Rleb (x y : R) : bool := if Rle_dec x y then true else false.

(** Truth value of a number in a condition: zero is false. *)
Definition truthy_float (x : R) : bool := if Req_dec_T x 0 then false else true.
Definition truthy_int (n : Z) : bool := negb (n =? 0)%Z.

(** The builtins [min(a, b)] and [max(a, b)]: the first argument is kept
    unless the second one is strictly smaller (larger). *)
Definition py_min (a b : R) : R := if Rlt_dec b a then b else a.
Definition py_max (a b : R) : R := if Rlt_dec a b then b else a.

(** [int(x)] on a finite float: truncation toward zero. *)
Definition trunc (x : R) : Z :=
  if Rle_dec 0 x then Int_part x else (- Int_part (- x))%Z.

(** [np.rint]: the nearest integer, ties to the even one. *)
Definition rint (x : R) : Z :=
  let f := Int_part x in
  let d := (x - IZR f)%R in
  if Rlt_dec d (1 / 2) then f
  else if Rlt_dec (1 / 2) d then (f + 1)%Z
  else if Z.even f then f else (f + 1)%Z.

(** [round(x, 2)]: scale by a hundred, round to the nearest integer, scale
    back. *)
Definition round2 (x : R) : R := (IZR (rint (x * 100)) / 100)%R.

(** [np.linalg.norm(np.array(p) - np.array(q))] for two pixel positions. *)
Definition pixel := (Z * Z)%type.

Definition px_norm (p q : pixel) : R :=
  let dx := IZR (fst p - fst q) in
  let dy := IZR (snd p - snd q) in
  sqrt (dx * dx + dy * dy).

(** *** Exceptions *)

Inductive exn : Type :=
| IndexError
| ValueError
| OverflowError
| NameError
| AttributeError.

Inductive outcome (A : Type) : Type :=
| Return (a : A)
| Raise (e : exn).

Arguments Return {A} a.
Arguments Raise {A} e.

Definition bind {A B : Type} (m : outcome A) (k : A -> outcome B) : outcome B :=
  match m with
  | Return a => k a
  | Raise e => Raise e
  end.

Notation "x <- m ;; k" := (bind m (fun x => k))
  (at level 61, m at next level, right associativity).

(** ** Floating-point arithmetic

    Where a claim is about the value that a floating-point computation
    returns, the code is read over the operations it calls and no law is
    assumed of them.  [Floating F] lists these operations on a type [F] of
    floats: the conversion of an integer, the value of a decimal literal
    ([f_lit m k] is the float written as [m] with the last [k] digits
    after the point, so [f_lit 25 4] is [0.0025]), the four operations,
    absolute value, [<], and the library calls [np.linalg.norm] and
    [np.dot] on vectors of two components, [round(x, 2)],
    [np.clip(x, lo, hi)], [np.arccos], [np.degrees] and [int(x)].  What is
    proved of code written over [Floating F] holds in whatever arithmetic
    runs it.

    Two arithmetics are given.  [real_ops] is that of the real numbers, in
    which no operation rounds.  [Binary64.ops] is IEEE binary64, the format
    of Python's [float] and NumPy's [float64], on the primitive floats;
    what [round(x, 2)], [np.arccos] and [np.degrees] return on a number is
    left open in it. *)

Class Floating (F : Type) : Type := mkFloating {
  f_of_int : Z -> F;
  f_lit : Z -> nat -> F;
  f_add : F -> F -> F;
  f_sub : F -> F -> F;
  f_mul : F -> F -> F;
  f_div : F -> F -> F;
  f_abs : F -> F;
  f_lt : F -> F -> bool;
  f_norm : F * F -> F;
  f_dot : F * F -> F * F -> F;
  f_round2 : F -> F;
  f_clip : F -> F -> F -> F;
  f_arccos : F -> F;
  f_degrees : F -> F;
  f_int : F -> outcome Z
}.

Declare Scope fl_scope.
Delimit Scope fl_scope with fl.
Infix "+" := f_add : fl_scope.
Infix "-" := f_sub : fl_scope.
Infix "*" := f_mul : fl_scope.
Infix "/" := f_div : fl_scope.
Infix "<?" := f_lt : fl_scope.

(** The arithmetic of the real numbers. *)
Definition real_ops : Floating R :=
  {| f_of_int := IZR;
     f_lit := fun m k => (IZR m / IZR (10 ^ Z.of_nat k))%R;
     f_add := Rplus;
     f_sub := Rminus;
     f_mul := Rmult;
     f_div := Rdiv;
     f_abs := Rabs;
     f_lt := Rltb;
     f_norm := fun u => sqrt (fst u * fst u + snd u * snd u);
     f_dot := fun u v => (fst u * fst v + snd u * snd v)%R;
     f_round2 := round2;
     f_clip := fun x lo hi => Rmin (Rmax x lo) hi;
     f_arccos := acos;
     f_degrees := fun x => (x * 180 / PI)%R;
     f_int := fun x => Return (trunc x) |}.

(** IEEE binary64. *)
Module Binary64.
Import PrimFloat.
Local Open Scope float_scope.

(** [float(z)]: exact for an integer below 2^53 in absolute value. *)
Definition of_int (z : Z) : float :=
  match z with
  | Z0 => 0
  | Zpos _ => of_uint63 (Uint63.of_Z z)
  | Zneg p => - of_uint63 (Uint63.of_Z (Zpos p))
  end.

(** A decimal literal denotes the double nearest to it; for a literal of
    up to fifteen digits this is the correctly rounded quotient of two
    integers that are doubles themselves. *)
Definition lit (m : Z) (k : nat) : float := of_int m / of_int (10 ^ Z.of_nat k).

(** [np.linalg.norm] and [np.dot] on two components, each product and
    the sum rounded on its own.  On integers below 2^26 in absolute
    value, pixel positions among them, the products and the sum are
    exact. *)
Definition norm (u : float * float) : float :=
  sqrt (fst u * fst u + snd u * snd u).

Definition dot (u v : float * float) : float :=
  fst u * fst v + snd u * snd v.

(** [np.clip(x, lo, hi)], that is [minimum(maximum(x, lo), hi)]; a
    not-a-number goes through. *)
Definition clip (x lo hi : float) : float :=
  if is_nan x then x
  else
    let m := if ltb x lo then lo else x in
    if ltb hi m then hi else m.

(** [int(x)]: truncation toward zero; it fails on a not-a-number and on
    an infinity. *)
Definition to_int (x : float) : outcome Z :=
  match FloatOps.Prim2SF x with
  | SpecFloat.S754_zero _ => Return 0%Z
  | SpecFloat.S754_finite s m e =>
      let mag := match e with
                 | Z0 => Zpos m
                 | Zpos p => (Zpos m * 2 ^ Zpos p)%Z
                 | Zneg p => (Zpos m / 2 ^ Zpos p)%Z
                 end in
      Return (if s then (- mag)%Z else mag)
  | SpecFloat.S754_infinity _ => Raise OverflowError
  | SpecFloat.S754_nan => Raise ValueError
  end.

(** The library calls that are left open: what [round(x, 2)],
    [np.arccos] and [np.degrees] return on a number. *)
Record library : Type := mkLibrary {
  round2 : float -> float;
  arccos : float -> float;
  degrees : float -> float
}.

(** [np.arccos] and [np.degrees] hand a not-a-number on. *)
Definition through_nan (f : float -> float) (x : float) : float :=
  if is_nan x then x else f x.

Definition ops (lib : library) : Floating float :=
  {| f_of_int := of_int;
     f_lit := lit;
     f_add := add;
     f_sub := sub;
     f_mul := mul;
     f_div := div;
     f_abs := abs;
     f_lt := ltb;
     f_norm := norm;
     f_dot := dot;
     f_round2 := round2 lib;
     f_clip := clip;
     f_arccos := through_nan (arccos lib);
     f_degrees := through_nan (degrees lib);
     f_int := to_int |}.

(** A library for the computations that call none of the three. *)
Definition no_library : library :=
  {| round2 := fun x => x; arccos := fun x => x; degrees := fun x => x |}.

End Binary64.

(** ** The pose dictionary

    [PoseEngine.process] returns one dictionary per frame and the other
    components read it.  [annotated] and [gray] are images and always
    present; the readers fetch the other keys with [dict.get], so an entry
    may be absent ([None]) and a default applies.  [wrist] and [elbow_pt]
    hold a position or Python's [None], which [dict.get] does not tell from
    an absent key. *)

Record pose_data (image gray_image : Type) : Type := mkPose {
  pose_annotated : image;
  pose_gray : gray_image;
  pose_elbow : option Z;
  pose_knee : option Z;
  pose_weight : string;
  pose_wrist : option pixel;
  pose_elbow_pt : option pixel;
  pose_track_id : string;
  pose_fps : Z
}.

(** ** shot_segmenter.py *)

Module ShotSegmenter.

Inductive phase : Type :=
| Backlift
| Downswing
| Contact
| FollowThrough.

Definition phase_name (p : phase) : string :=
  match p with
  | Backlift => "Backlift"
  | Downswing => "Downswing"
  | Contact => "Contact"
  | FollowThrough => "FollowThrough"
  end.

Definition phase_eqb (p q : phase) : bool :=
  match p, q with
  | Backlift, Backlift
  | Downswing, Downswing
  | Contact, Contact
  | FollowThrough, FollowThrough => true
  | _, _ => false
  end.

(** Default of the [buffer_size] argument of the constructor. *)
Definition default_buffer_size : nat := 120.

(** [ShotSegmenter.detect_phase] *)
Definition detect_phase (elbow_angle : Z) : phase :=
  if (elbow_angle >? 150)%Z then Backlift
  else if (elbow_angle >? 120)%Z then Downswing
  else if (elbow_angle >? 90)%Z then Contact
  else FollowThrough.

Section Segmenter.

(** The image type is opaque to the segmenter: frames are only copied
    into the buffer and handed back. *)
Variables image gray_image : Type.

(** The dictionary stored in [self.current_shot]. *)
Record shot : Type := mkShot {
  shot_ident : Z;
  start_frame : Z
}.

Record state : Type := mkState {
  current_shot : option shot;
  shot_id : Z;
  frame_buffer : list image;
  buffer_size : nat
}.

(** The dictionary returned by [update]. *)
Record result : Type := mkResult {
  res_id : Z;
  res_phase : phase;
  started : bool;
  ended : bool;
  frames : option (list image)
}.

(** [ShotSegmenter.__init__] *)
Definition init (size : nat) : state :=
  {| current_shot := None; shot_id := 0; frame_buffer := []; buffer_size := size |}.

Definition is_none {A : Type} (o : option A) : bool :=
  match o with None => true | Some _ => false end.

(** The four blocks of [update], each a function on the pair of the
    segmenter state and the result dictionary under construction. *)

Definition start_shot (ph : phase) (frame_id : Z) (sr : state * result) : state * result :=
  let (s, r) := sr in
  if phase_eqb ph Backlift && is_none (current_shot s) then
    let sid := (shot_id s + 1)%Z in
    ({| current_shot := Some {| shot_ident := sid; start_frame := frame_id |};
        shot_id := sid;
        frame_buffer := [];
        buffer_size := buffer_size s |},
     {| res_id := res_id r; res_phase := res_phase r;
        started := true; ended := ended r; frames := frames r |})
  else (s, r).

Definition buffer_frame (frame : image) (sr : state * result) : state * result :=
  let (s, r) := sr in
  match current_shot s with
  | Some _ =>
      ({| current_shot := current_shot s;
          shot_id := shot_id s;
          frame_buffer := deque_append (buffer_size s) (frame_buffer s) frame;
          buffer_size := buffer_size s |}, r)
  | None => (s, r)
  end.

Definition end_shot (ph : phase) (sr : state * result) : state * result :=
  let (s, r) := sr in
  match current_shot s with
  | Some sh =>
      if phase_eqb ph FollowThrough then
        ({| current_shot := None;
            shot_id := shot_id s;
            frame_buffer := [];
            buffer_size := buffer_size s |},
         {| res_id := shot_ident sh; res_phase := res_phase r;
            started := started r; ended := true;
            frames := Some (frame_buffer s) |})
      else (s, r)
  | None => (s, r)
  end.

Definition active_id (sr : state * result) : state * result :=
  let (s, r) := sr in
  match current_shot s with
  | Some sh =>
      (s, {| res_id := shot_ident sh; res_phase := res_phase r;
             started := started r; ended := ended r; frames := frames r |})
  | None => (s, r)
  end.

(** [ShotSegmenter.update]: the state after the call and the returned
    dictionary. *)
Definition update (s : state) (pd : pose_data image gray_image) (frame_id : Z)
  : state * result :=
  let elbow := get_or (pose_elbow pd) 0%Z in
  let frame := pose_annotated pd in
  let ph := detect_phase elbow in
  let r0 := {| res_id := shot_id s; res_phase := ph;
               started := false; ended := false; frames := None |} in
  active_id (end_shot ph (buffer_frame frame (start_shot ph frame_id (s, r0)))).

(** Feeding a list of frames, numbered from [frame_id] on, through
    [update]; the results come back in order. *)
Fixpoint run (s : state) (frame_id : Z) (inputs : list (pose_data image gray_image))
  : state * list result :=
  match inputs with
  | [] => (s, [])
  | pd :: rest =>
      let (s1, r) := update s pd frame_id in
      let (s2, rs) := run s1 (frame_id + 1)%Z rest in
      (s2, r :: rs)
  end.

(** The elbow angle [update] reads from a pose dictionary. *)
Definition elbow_of (pd : pose_data image gray_image) : Z :=
  get_or (pose_elbow pd) 0%Z.

End Segmenter.

(** A frame for replaying the segmenter on elbow angles alone: the images
    carry no information. *)
Definition elbow_frame (e : Z) : pose_data unit unit :=
  {| pose_annotated := tt; pose_gray := tt;
     pose_elbow := Some e; pose_knee := Some 0%Z;
     pose_weight := "Neutral"; pose_wrist := None; pose_elbow_pt := None;
     pose_track_id := "1"; pose_fps := 30 |}.

(** A fresh segmenter with the default buffer of 120 frames. *)
Definition fresh : state unit := init unit default_buffer_size.

End ShotSegmenter.

(** ** The speed dictionary

    Returned by [SpeedEstimator.update] and read by [Coach.evaluate] with
    [dict.get(key, 0)]. *)

Record speed_data : Type := mkSpeed {
  speed_bat : option R;
  speed_ball : option R;
  speed_arm : option R
}.

(** ** coach.py *)

Module Coach.

Local Open Scope string_scope.

(** The thresholds set by [Coach.__init__]. *)
Record coach : Type := mkCoach {
  MIN_BAT_SPEED : Z;
  MIN_ELBOW_ANGLE : Z;
  MIN_KNEE_ANGLE : Z
}.

Definition init : coach :=
  {| MIN_BAT_SPEED := 60; MIN_ELBOW_ANGLE := 120; MIN_KNEE_ANGLE := 140 |}.

Definition msg_power : string := "Increase bat swing speed for better power".
Definition msg_elbow : string := "Start downswing earlier – elbow collapsing".
Definition msg_knee : string := "Bend front knee more for balance".
Definition msg_forearm : string := "Accelerate forearm more through contact".
Definition msg_late : string := "Late contact – meet the ball earlier".
Definition msg_excellent : string := "Excellent shot mechanics 👍".
Definition msg_default : string := "Good control – keep consistency".

(** The dictionary returned by [evaluate]. *)
Record coach_data : Type := mkCoachData { feedback : string }.

(** The five values [evaluate] reads from its two arguments. *)
Record readings : Type := mkReadings {
  elbow : Z;
  knee : Z;
  bat_speed : R;
  arm_speed : R;
  ball_speed : R
}.

Section Evaluate.

Variables image gray_image : Type.

Definition read (pd : pose_data image gray_image) (sd : speed_data) : readings :=
  {| elbow := get_or (pose_elbow pd) 0%Z;
     knee := get_or (pose_knee pd) 0%Z;
     bat_speed := get_or (speed_bat sd) 0%R;
     arm_speed := get_or (speed_arm sd) 0%R;
     ball_speed := get_or (speed_ball sd) 0%R |}.

(** The conditions of the [if] statements, in the order of the source. *)
Definition bat_rule (self : coach) (v : readings) : bool :=
  truthy_float (bat_speed v) && Rltb (bat_speed v) (IZR (MIN_BAT_SPEED self)).

Definition elbow_rule (self : coach) (v : readings) : bool :=
  truthy_int (elbow v) && (elbow v <? MIN_ELBOW_ANGLE self)%Z.

Definition knee_rule (self : coach) (v : readings) : bool :=
  truthy_int (knee v) && (knee v <? MIN_KNEE_ANGLE self)%Z.

Definition arm_rule (v : readings) : bool :=
  truthy_float (arm_speed v) && Rltb (arm_speed v) (bat_speed v * 0.6).

Definition ball_rule (v : readings) : bool :=
  truthy_float (ball_speed v) && Rltb (ball_speed v) (bat_speed v * 0.7).

Definition excellent_rule (v : readings) : bool :=
  Rleb 80 (bat_speed v) && (elbow v >=? 140)%Z && (knee v >=? 150)%Z.

(** [Coach.evaluate] *)
Definition evaluate (self : coach) (pd : pose_data image gray_image) (sd : speed_data)
  : coach_data :=
  let v := read pd sd in
  if bat_rule self v then {| feedback := msg_power |}
  else if elbow_rule self v then {| feedback := msg_elbow |}
  else if knee_rule self v then {| feedback := msg_knee |}
  else if arm_rule v then {| feedback := msg_forearm |}
  else if ball_rule v then {| feedback := msg_late |}
  else if excellent_rule v then {| feedback := msg_excellent |}
  else {| feedback := msg_default |}.

End Evaluate.

(** The specification's reading of [evaluate]: an ordered table of guarded
    messages, of which the first whose guard holds wins, with a fallback. *)
Definition rule_table (self : coach) : list ((readings -> bool) * string) :=
  [ (bat_rule self, msg_power);
    (elbow_rule self, msg_elbow);
    (knee_rule self, msg_knee);
    (arm_rule, msg_forearm);
    (ball_rule, msg_late);
    (excellent_rule, msg_excellent) ].

Fixpoint first_match (table : list ((readings -> bool) * string)) (v : readings)
  (fallback : string) : string :=
  match table with
  | [] => fallback
  | (guard, msg) :: rest => if guard v then msg else first_match rest v fallback
  end.

End Coach.

(** ** speed_estimator.py *)

Module SpeedEstimator.

Local Open Scope R_scope.

(** [np.mean] of a non-empty window. *)
Definition mean (l : list R) : R :=
  fold_right Rplus 0 l / INR (List.length l).

(** [max(x0 :: rest, key=key)]: the first element whose key is largest. *)
Fixpoint max_by {A : Type} (key : A -> R) (best : A) (rest : list A) : A :=
  match rest with
  | [] => best
  | x :: rest' => max_by key (if Rlt_dec (key best) (key x) then x else best) rest'
  end.

(** Length of the rolling window, [deque(maxlen=5)]. *)
Definition ball_window : nat := 5.

Section Estimator.

(** OpenCV is outside the program.  [motion_contours prev cur] stands for
    the chain [absdiff], [threshold], [medianBlur], [findContours] on two
    consecutive grayscale frames; [contourArea] and [boundingRect] are
    the functions of the same names. *)
Variables gray_image contour : Type.
Variable motion_contours : gray_image -> gray_image -> list contour.
Variable contourArea : contour -> R.
Variable boundingRect : contour -> Z * Z * Z * Z.

Record state : Type := mkState {
  fps : R;
  meters_per_pixel : R;
  prev_wrist : option pixel;
  bat_ema : option R;
  alpha : R;
  prev_gray : option gray_image;
  prev_ball_center : option pixel;
  ball_speeds : list R
}.

(** [SpeedEstimator.__init__] *)
Definition init (fps0 : R) : state :=
  {| fps := fps0;
     meters_per_pixel := 0.0025;
     prev_wrist := None;
     bat_ema := None;
     alpha := 0.3;
     prev_gray := None;
     prev_ball_center := None;
     ball_speeds := [] |}.

(** Attribute assignments. *)
Definition set_prev_wrist (s : state) (w : option pixel) : state :=
  {| fps := fps s; meters_per_pixel := meters_per_pixel s;
     prev_wrist := w; bat_ema := bat_ema s; alpha := alpha s;
     prev_gray := prev_gray s; prev_ball_center := prev_ball_center s;
     ball_speeds := ball_speeds s |}.

Definition set_bat_ema (s : state) (e : option R) : state :=
  {| fps := fps s; meters_per_pixel := meters_per_pixel s;
     prev_wrist := prev_wrist s; bat_ema := e; alpha := alpha s;
     prev_gray := prev_gray s; prev_ball_center := prev_ball_center s;
     ball_speeds := ball_speeds s |}.

Definition set_prev_gray (s : state) (g : option gray_image) : state :=
  {| fps := fps s; meters_per_pixel := meters_per_pixel s;
     prev_wrist := prev_wrist s; bat_ema := bat_ema s; alpha := alpha s;
     prev_gray := g; prev_ball_center := prev_ball_center s;
     ball_speeds := ball_speeds s |}.

Definition set_prev_ball_center (s : state) (c : option pixel) : state :=
  {| fps := fps s; meters_per_pixel := meters_per_pixel s;
     prev_wrist := prev_wrist s; bat_ema := bat_ema s; alpha := alpha s;
     prev_gray := prev_gray s; prev_ball_center := c;
     ball_speeds := ball_speeds s |}.

Definition set_ball_speeds (s : state) (l : list R) : state :=
  {| fps := fps s; meters_per_pixel := meters_per_pixel s;
     prev_wrist := prev_wrist s; bat_ema := bat_ema s; alpha := alpha s;
     prev_gray := prev_gray s; prev_ball_center := prev_ball_center s;
     ball_speeds := l |}.

(** [SpeedEstimator._bat_speed]: the state after the call and the
    returned speed. *)
Definition _bat_speed (s : state) (wrist : option pixel) : state * R :=
  match wrist, prev_wrist s with
  | Some w, Some pw =>
      let px_dist := px_norm w pw in
      let s1 := set_prev_wrist s wrist in
      let raw_speed := px_dist * meters_per_pixel s1 * fps s1 * 3.6 in
      let ema :=
        match bat_ema s1 with
        | None => raw_speed
        | Some e => alpha s1 * raw_speed + (1 - alpha s1) * e
        end in
      (set_bat_ema s1 (Some ema), round2 (py_min ema 160))
  | _, _ => (set_prev_wrist s wrist, 0)
  end.

(** [SpeedEstimator._ball_speed] *)
Definition _ball_speed (s : state) (gray : gray_image) : state * R :=
  match prev_gray s with
  | None => (set_prev_gray s (Some gray), 0)
  | Some pg =>
      let contours := motion_contours pg gray in
      let s1 := set_prev_gray s (Some gray) in
      match contours with
      | [] => (s1, 0)
      | c0 :: rest =>
          let c := max_by contourArea c0 rest in
          let area := contourArea c in
          if Rltb area 5 || Rltb 300 area then (s1, 0)
          else
            let '(x, y, w, h) := boundingRect c in
            let center := ((x + w / 2)%Z, (y + h / 2)%Z) in
            match prev_ball_center s1 with
            | None => (set_prev_ball_center s1 (Some center), 0)
            | Some pc =>
                let px_dist := px_norm center pc in
                let s2 := set_prev_ball_center s1 (Some center) in
                let speed := px_dist * meters_per_pixel s2 * fps s2 * 3.6 in
                let s3 := set_ball_speeds s2
                            (deque_append ball_window (ball_speeds s2) speed) in
                (s3, round2 (py_min (mean (ball_speeds s3)) 160))
            end
      end
  end.

(** [SpeedEstimator.update] *)
Definition update {image : Type} (s : state) (pd : pose_data image gray_image)
  : state * speed_data :=
  let (s1, bat) := _bat_speed s (pose_wrist pd) in
  let (s2, ball) := _ball_speed s1 (pose_gray pd) in
  let arm := round2 (bat * 0.6) in
  (s2, {| speed_bat := Some bat; speed_ball := Some ball; speed_arm := Some arm |}).

(** Calling [_bat_speed] once per frame on a list of wrist readings. *)
Fixpoint bat_run (s : state) (wrists : list (option pixel)) : state * list R :=
  match wrists with
  | [] => (s, [])
  | w :: rest =>
      let (s1, v) := _bat_speed s w in
      let (s2, vs) := bat_run s1 rest in
      (s2, v :: vs)
  end.

(** Calling [_ball_speed] once per frame. *)
Fixpoint ball_run (s : state) (grays : list gray_image) : state * list R :=
  match grays with
  | [] => (s, [])
  | g :: rest =>
      let (s1, v) := _ball_speed s g in
      let (s2, vs) := ball_run s1 rest in
      (s2, v :: vs)
  end.

(** A frame on which [_ball_speed], holding [pg] as the previous frame,
    finds no qualifying contour: no contour at all, or the largest one
    has an area outside the accepted range. *)
Definition no_qualifying_contour (pg gray : gray_image) : Prop :=
  match motion_contours pg gray with
  | [] => True
  | c0 :: rest =>
      let area := contourArea (max_by contourArea c0 rest) in
      area < 5 \/ area > 300
  end.

End Estimator.

(** What both estimators report of an average: capped at 160 and rounded
    to two decimals. *)
Definition reported (e : R) : R := round2 (py_min e 160).

(** A stand-in for OpenCV on which the estimator can be run: a grayscale
    frame is given by the contours that differencing against the frame
    before it yields, a contour by its area and its bounding rectangle. *)
Module Replay.
Definition contour : Type := (R * (Z * Z * Z * Z))%type.
Definition gray_image : Type := list contour.
Definition motion_contours (_ cur : gray_image) : list contour := cur.
Definition contourArea (c : contour) : R := fst c.
Definition boundingRect (c : contour) : Z * Z * Z * Z := snd c.

Definition ball_speed := _ball_speed motion_contours contourArea boundingRect.
Definition ball_frames := ball_run motion_contours contourArea boundingRect.
Definition start : state gray_image := init gray_image 30.

(** Four frames: nothing moves; a ball-sized blob centred at (10,10);
    nothing moves; the blob again, centred at (20,10). *)
Definition still : gray_image := [].
Definition ball_at_10 : gray_image := [(50, (8, 8, 4, 4)%Z)].
Definition ball_at_20 : gray_image := [(50, (18, 8, 4, 4)%Z)].

(** The estimator after the first two frames: the blob has been seen
    once. *)
Definition tracking : state gray_image :=
  {| fps := 30; meters_per_pixel := 0.0025;
     prev_wrist := None; bat_ema := None; alpha := 0.3;
     prev_gray := Some ball_at_10;
     prev_ball_center := Some (10, 10)%Z;
     ball_speeds := [] |}.
End Replay.

End SpeedEstimator.

(** ** speed_estimator.py: the bat speed, in floating point

    [_bat_speed] once more, over any arithmetic [F]: every operation of
    the source is the operation of [F], in the order in which Python
    evaluates it. *)

Module SpeedEstimatorF.

Section Arithmetic.

Context {F : Type} {ops : Floating F}.
Variable gray_image : Type.

Local Open Scope fl_scope.

(** The builtin [min(a, b)]. *)
Definition py_min (a b : F) : F := if b <? a then b else a.

(** [np.linalg.norm(np.array(p) - np.array(q))]: the difference is taken
    on integers and converted. *)
Definition px_norm (p q : pixel) : F :=
  f_norm (f_of_int (fst p - fst q), f_of_int (snd p - snd q)).

Record state : Type := mkState {
  fps : F;
  meters_per_pixel : F;
  prev_wrist : option pixel;
  bat_ema : option F;
  alpha : F;
  prev_gray : option gray_image;
  prev_ball_center : option pixel;
  ball_speeds : list F
}.

(** [SpeedEstimator.__init__] *)
Definition init (fps0 : F) : state :=
  {| fps := fps0;
     meters_per_pixel := f_lit 25 4;
     prev_wrist := None;
     bat_ema := None;
     alpha := f_lit 3 1;
     prev_gray := None;
     prev_ball_center := None;
     ball_speeds := [] |}.

Definition set_prev_wrist (s : state) (w : option pixel) : state :=
  {| fps := fps s; meters_per_pixel := meters_per_pixel s;
     prev_wrist := w; bat_ema := bat_ema s; alpha := alpha s;
     prev_gray := prev_gray s; prev_ball_center := prev_ball_center s;
     ball_speeds := ball_speeds s |}.

Definition set_bat_ema (s : state) (e : option F) : state :=
  {| fps := fps s; meters_per_pixel := meters_per_pixel s;
     prev_wrist := prev_wrist s; bat_ema := e; alpha := alpha s;
     prev_gray := prev_gray s; prev_ball_center := prev_ball_center s;
     ball_speeds := ball_speeds s |}.

(** [SpeedEstimator._bat_speed]; [3.6], [160.0] and [0.0] are the
    literals of the source. *)
Definition _bat_speed (s : state) (wrist : option pixel) : state * F :=
  match wrist, prev_wrist s with
  | Some w, Some pw =>
      let px_dist := px_norm w pw in
      let s1 := set_prev_wrist s wrist in
      let raw_speed := px_dist * meters_per_pixel s1 * fps s1 * f_lit 36 1 in
      let ema :=
        match bat_ema s1 with
        | None => raw_speed
        | Some e => alpha s1 * raw_speed + (f_of_int 1 - alpha s1) * e
        end in
      (set_bat_ema s1 (Some ema), f_round2 (py_min ema (f_lit 160 0)))
  | _, _ => (set_prev_wrist s wrist, f_lit 0 0)
  end.

(** Calling [_bat_speed] once per frame on a list of wrist readings. *)
Fixpoint bat_run (s : state) (wrists : list (option pixel)) : state * list F :=
  match wrists with
  | [] => (s, [])
  | w :: rest =>
      let (s1, v) := _bat_speed s w in
      let (s2, vs) := bat_run s1 rest in
      (s2, v :: vs)
  end.

(** The documented bat-speed recurrence, written from the specification:
    raw speeds are the displacements between consecutive wrists, scaled;
    the average starts at the first raw speed and then follows
    [ema_n = a * raw_n + (1 - a) * ema_(n-1)]; what is reported is the
    average capped at 160 and rounded to two decimals. *)
Fixpoint raw_speeds (mpp fps0 : F) (prev : pixel) (wrists : list pixel) : list F :=
  match wrists with
  | [] => []
  | w :: rest =>
      px_norm w prev * mpp * fps0 * f_lit 36 1 :: raw_speeds mpp fps0 w rest
  end.

Fixpoint ema_from (a : F) (prev : F) (raws : list F) : list F :=
  match raws with
  | [] => []
  | r :: rest =>
      let e := a * r + (f_of_int 1 - a) * prev in e :: ema_from a e rest
  end.

Definition ema_seq (a : F) (raws : list F) : list F :=
  match raws with
  | [] => []
  | r :: rest => r :: ema_from a r rest
  end.

Definition reported (e : F) : F := f_round2 (py_min e (f_lit 160 0)).

End Arithmetic.

(** The wrists that follow (0,0) in the documented sequence. *)
Definition documented_wrists : list pixel := [(10, 0); (10, 0); (30, 0)]%Z.

(** A state of the estimator over the real numbers ([SpeedEstimator]),
    as a state of the estimator in the arithmetic [real_ops]. *)
Definition of_reals {gray_image : Type} (s : SpeedEstimator.state gray_image)
  : @state R gray_image :=
  {| fps := SpeedEstimator.fps s;
     meters_per_pixel := SpeedEstimator.meters_per_pixel s;
     prev_wrist := SpeedEstimator.prev_wrist s;
     bat_ema := SpeedEstimator.bat_ema s;
     alpha := SpeedEstimator.alpha s;
     prev_gray := SpeedEstimator.prev_gray s;
     prev_ball_center := SpeedEstimator.prev_ball_center s;
     ball_speeds := SpeedEstimator.ball_speeds s |}.

End SpeedEstimatorF.

(** ** pose_engine.py *)

Module PoseEngine.

Local Open Scope R_scope.

(** A keypoint, [kpts[i][:2]]. *)
Definition point := (R * R)%type.

(** A NumPy float: a finite value or one of the IEEE special values.  NumPy
    scalar division by zero warns and yields a special value; it does not
    raise. *)
Inductive npfloat : Type :=
| Fin (x : R)
| PosInf
| NegInf
| NaN.

Definition np_div (x y : R) : npfloat :=
  if Req_dec_T y 0 then
    if Req_dec_T x 0 then NaN
    else if Rlt_dec 0 x then PosInf else NegInf
  else Fin (x / y).

(** [np.clip(v, lo, hi)]; a not-a-number goes through unchanged. *)
Definition clip (x lo hi : R) : R := Rmin (Rmax x lo) hi.

Definition np_clip (v : npfloat) (lo hi : R) : npfloat :=
  match v with
  | Fin x => Fin (clip x lo hi)
  | PosInf => Fin hi
  | NegInf => Fin lo
  | NaN => NaN
  end.

Definition np_arccos (v : npfloat) : npfloat :=
  match v with
  | Fin x => if Rle_dec (-1) x then if Rle_dec x 1 then Fin (acos x) else NaN else NaN
  | _ => NaN
  end.

Definition np_degrees (v : npfloat) : npfloat :=
  match v with
  | Fin x => Fin (x * 180 / PI)
  | other => other
  end.

(** [int(v)]: fails on a not-a-number and on an infinity. *)
Definition py_int (v : npfloat) : outcome Z :=
  match v with
  | Fin x => Return (trunc x)
  | NaN => Raise ValueError
  | PosInf | NegInf => Raise OverflowError
  end.

Definition vsub (p q : point) : point := (fst p - fst q, snd p - snd q).
Definition dot (u v : point) : R := fst u * fst v + snd u * snd v.
Definition norm (u : point) : R := sqrt (fst u * fst u + snd u * snd u).

(** [PoseEngine.calculate_angle] *)
Definition calculate_angle (a b c : point) : outcome Z :=
  let ba := vsub a b in
  let bc := vsub c b in
  let cos := np_div (dot ba bc) (norm ba * norm bc) in
  let angle := np_degrees (np_arccos (np_clip cos (-1) 1)) in
  py_int angle.

(** [kpts[i][:2]]: indexing past the end of the array raises. *)
Definition kpt (kpts : list point) (i : nat) : outcome point :=
  match nth_error kpts i with
  | Some p => Return p
  | None => Raise IndexError
  end.

Local Open Scope string_scope.

(** The body of the [try] block of [calculate_weight_transfer]. *)
Definition weight_transfer_body (kpts : list point) : outcome string :=
  l_hip <- kpt kpts 11 ;;
  r_hip <- kpt kpts 12 ;;
  l_ankle <- kpt kpts 15 ;;
  r_ankle <- kpt kpts 16 ;;
  let hip_center_x := ((fst l_hip + fst r_hip) / 2)%R in
  let feet_width := Rabs (fst l_ankle - fst r_ankle) in
  if Rltb feet_width 10 then Return "Balanced"
  else
    let min_x := py_min (fst l_ankle) (fst r_ankle) in
    let max_x := py_max (fst l_ankle) (fst r_ankle) in
    let pos_ratio := ((hip_center_x - min_x) / (max_x - min_x))%R in
    let pos_ratio := clip pos_ratio 0 1 in
    if Rltb 0.6 pos_ratio then
      Return (str_of_int (trunc (pos_ratio * 100)) ++ "% Front")
    else if Rltb pos_ratio 0.4 then
      Return (str_of_int (trunc ((1 - pos_ratio) * 100)) ++ "% Back")
    else Return "Balanced".

(** [PoseEngine.calculate_weight_transfer]: any exception gives
    ["Neutral"]. *)
Definition calculate_weight_transfer (kpts : list point) : string :=
  match weight_transfer_body kpts with
  | Return s => s
  | Raise _ => "Neutral"
  end.

(** One tracked subject of a frame: row [i] of [boxes.xyxy], of
    [boxes.id] and of [keypoints.xy]. *)
Record detection : Type := mkDetection {
  box : R * R * R * R;
  track_id : Z;
  kpts : list point
}.

Definition box_area (b : R * R * R * R) : R :=
  let '(x1, y1, x2, y2) := b in ((x2 - x1) * (y2 - y1))%R.

(** [np.where(track_ids == target_id)[0][0]] *)
Fixpoint index_of (t : Z) (i : nat) (dets : list detection) : option nat :=
  match dets with
  | [] => None
  | d :: rest => if (track_id d =? t)%Z then Some i else index_of t (S i) rest
  end.

(** The loop that picks the largest box; [best] holds [target_idx] and
    [current_track_id]. *)
Fixpoint largest (i : nat) (max_area : R) (best : option (nat * Z))
  (dets : list detection) : option (nat * Z) :=
  match dets with
  | [] => best
  | d :: rest =>
      let area := box_area (box d) in
      if Rlt_dec max_area area then largest (S i) area (Some (i, track_id d)) rest
      else largest (S i) max_area best rest
  end.

(** Block 2 of [process], "select target". *)
Definition select_target (target_id : option Z) (dets : list detection)
  : option (nat * Z) :=
  match target_id with
  | Some t =>
      match index_of t 0 dets with
      | Some i => Some (i, t)
      | None => None
      end
  | None => largest 0 0%R None dets
  end.

Definition to_pixel (p : point) : pixel := (trunc (fst p), trunc (snd p)).

(** The values computed inside the [try] block of block 3. *)
Record metrics : Type := mkMetrics {
  m_elbow : Z;
  m_knee : Z;
  m_weight : string;
  m_wrist : pixel;
  m_elbow_pt : pixel
}.

Definition extract_metrics (k : list point) : outcome metrics :=
  p6 <- kpt k 6 ;; p8 <- kpt k 8 ;; p10 <- kpt k 10 ;;
  elbow_angle <- calculate_angle p6 p8 p10 ;;
  p12 <- kpt k 12 ;; p14 <- kpt k 14 ;; p16 <- kpt k 16 ;;
  knee_angle <- calculate_angle p12 p14 p16 ;;
  let weight_str := calculate_weight_transfer k in
  Return {| m_elbow := elbow_angle; m_knee := knee_angle; m_weight := weight_str;
            m_wrist := to_pixel p10; m_elbow_pt := to_pixel p8 |}.

Section Process.

(** [cvtColor] is OpenCV's conversion to grayscale; [draw_ids] stands for
    the loop that writes every subject's id and box onto the copy of the
    frame. *)
Variables image gray_image : Type.
Variable cvtColor : image -> gray_image.
Variable draw_ids : image -> list detection -> option Z -> image.

Record engine : Type := mkEngine {
  target_id : option Z;
  engine_fps : Z
}.

(** The dictionary [data] as [process] first builds it. *)
Definition fallback (self : engine) (annotated : image) (gray : gray_image)
  : pose_data image gray_image :=
  {| pose_annotated := annotated;
     pose_gray := gray;
     pose_elbow := Some 0%Z;
     pose_knee := Some 0%Z;
     pose_weight := "Neutral";
     pose_wrist := None;
     pose_elbow_pt := None;
     pose_track_id := "Searching...";
     pose_fps := engine_fps self |}.

(** [PoseEngine.process].  [results] is what the tracker returned:
    [None] when there is no result, no boxes or no track ids. *)
Definition process (self : engine) (frame : image) (results : option (list detection))
  : pose_data image gray_image :=
  let gray := cvtColor frame in
  match results with
  | None => fallback self frame gray
  | Some [] => fallback self frame gray
  | Some dets =>
      let annotated := draw_ids frame dets (target_id self) in
      let data := fallback self annotated gray in
      match select_target (target_id self) dets with
      | None => data
      | Some (target_idx, current_track_id) =>
          match extract_metrics (kpts (nth target_idx dets (mkDetection (0, 0, 0, 0)%R 0 []))) with
          | Return m =>
              {| pose_annotated := annotated;
                 pose_gray := gray;
                 pose_elbow := Some (m_elbow m);
                 pose_knee := Some (m_knee m);
                 pose_weight := m_weight m;
                 pose_wrist := Some (m_wrist m);
                 pose_elbow_pt := Some (m_elbow_pt m);
                 pose_track_id := str_of_int current_track_id;
                 pose_fps := engine_fps self |}
          | Raise _ => data
          end
      end
  end.

(** The frames on which [process] has no metrics for the target: the
    tracker returned nothing, the target is not among the subjects, or
    an exception was raised while the metrics were computed. *)
Definition target_lost (self : engine) (results : option (list detection)) : Prop :=
  match results with
  | None => True
  | Some dets =>
      match select_target (target_id self) dets with
      | None => True
      | Some (target_idx, _) =>
          exists e : exn,
            extract_metrics
              (kpts (nth target_idx dets (mkDetection (0, 0, 0, 0)%R 0 [])))
            = Raise e
      end
  end.

End Process.

(** Seventeen keypoints of a subject standing with the ankles at x = 0 and
    x = 100 and the hips at x = 70 and x = 80. *)
Definition leaning_kpts : list point :=
  (repeat (50, 10)%R 11 ++ [(70, 50)%R; (80, 50)%R] ++ repeat (50, 70)%R 2
     ++ [(0, 100)%R; (100, 100)%R])%list.

End PoseEngine.

(** ** pose_engine.py: weight transfer and joint angle, in floating point

    [calculate_weight_transfer] and [calculate_angle] once more, over any
    arithmetic [F], the type of the keypoint coordinates; the integers and
    the decimal literals of the source are converted to it. *)

Module PoseEngineF.

Section Arithmetic.

Context {F : Type} {ops : Floating F}.

Local Open Scope string_scope.
Local Open Scope fl_scope.

Definition point : Type := (F * F)%type.

(** The builtins [min(a, b)] and [max(a, b)]. *)
Definition py_min (a b : F) : F := if b <? a then b else a.
Definition py_max (a b : F) : F := if a <? b then b else a.

(** [kpts[i][:2]] *)
Definition kpt (kpts : list point) (i : nat) : outcome point :=
  match nth_error kpts i with
  | Some p => Return p
  | None => Raise IndexError
  end.

(** The body of the [try] block of [calculate_weight_transfer]. *)
Definition weight_transfer_body (kpts : list point) : outcome string :=
  l_hip <- kpt kpts 11 ;;
  r_hip <- kpt kpts 12 ;;
  l_ankle <- kpt kpts 15 ;;
  r_ankle <- kpt kpts 16 ;;
  let hip_center_x := (fst l_hip + fst r_hip) / f_of_int 2 in
  let feet_width := f_abs (fst l_ankle - fst r_ankle) in
  if feet_width <? f_of_int 10 then Return "Balanced"
  else
    let min_x := py_min (fst l_ankle) (fst r_ankle) in
    let max_x := py_max (fst l_ankle) (fst r_ankle) in
    let pos_ratio := (hip_center_x - min_x) / (max_x - min_x) in
    let pos_ratio := f_clip pos_ratio (f_of_int 0) (f_of_int 1) in
    if f_lit 6 1 <? pos_ratio then
      pct <- f_int (pos_ratio * f_of_int 100) ;;
      Return (str_of_int pct ++ "% Front")
    else if pos_ratio <? f_lit 4 1 then
      pct <- f_int ((f_of_int 1 - pos_ratio) * f_of_int 100) ;;
      Return (str_of_int pct ++ "% Back")
    else Return "Balanced".

(** [PoseEngine.calculate_weight_transfer]: any exception gives
    ["Neutral"]. *)
Definition calculate_weight_transfer (kpts : list point) : string :=
  match weight_transfer_body kpts with
  | Return s => s
  | Raise _ => "Neutral"
  end.

(** The horizontal distance of the ankles and the clamped position of the
    hip centre between them, as [calculate_weight_transfer] computes
    them. *)
Definition ankle_span (l_ankle r_ankle : point) : F :=
  f_abs (fst l_ankle - fst r_ankle).

Definition hip_ratio (l_hip r_hip l_ankle r_ankle : point) : F :=
  let min_x := py_min (fst l_ankle) (fst r_ankle) in
  let max_x := py_max (fst l_ankle) (fst r_ankle) in
  f_clip (((fst l_hip + fst r_hip) / f_of_int 2 - min_x) / (max_x - min_x))
    (f_of_int 0) (f_of_int 1).

(** [PoseEngine.calculate_angle] *)
Definition vsub (p q : point) : point := (fst p - fst q, snd p - snd q).

Definition calculate_angle (a b c : point) : outcome Z :=
  let ba := vsub a b in
  let bc := vsub c b in
  let cos := f_dot ba bc / (f_norm ba * f_norm bc) in
  let angle := f_degrees (f_arccos (f_clip cos (f_lit (-10) 1) (f_lit 10 1))) in
  f_int angle.

(** The quotient of the dot product by the two norms, and what [np.clip]
    makes of it: the argument of [np.arccos]. *)
Definition cosine (a b c : point) : F :=
  f_dot (vsub a b) (vsub c b) / (f_norm (vsub a b) * f_norm (vsub c b)).

Definition clamped_cosine (a b c : point) : F :=
  f_clip (cosine a b c) (f_lit (-10) 1) (f_lit 10 1).

(** Seventeen keypoints of a subject standing with the ankles at x = 0 and
    x = 100 and the hips at x = [hip_l] and x = [hip_r]. *)
Definition standing (hip_l hip_r : Z) : list point :=
  let p (x y : Z) : point := (f_of_int x, f_of_int y) in
  (repeat (p 50 10)%Z 11 ++ [p hip_l 50%Z; p hip_r 50%Z] ++ repeat (p 50 70)%Z 2
     ++ [p 0 100; p 100 100]%Z)%list.

End Arithmetic.

End PoseEngineF.

(** ** highlight_generator.py

    The file has no [import] line, so the names [os] and [cv2] are
    unbound in it, and evaluating one of them raises [NameError].  The
    body of the class holds [__init__] only: [save] starts in the first
    column and is a function of the module, with [self] as its first
    parameter, not a method of [HighlightGenerator]. *)

Module HighlightGenerator.

Local Open Scope string_scope.

(** [s.endswith("/")] *)
Fixpoint ends_with_sep (s : string) : bool :=
  match s with
  | EmptyString => false
  | String c EmptyString => Ascii.eqb c "/"%char
  | String _ rest => ends_with_sep rest
  end.

(** [os.path.join(a, b)] with the POSIX separator: an absolute [b]
    replaces [a]; otherwise [b] is appended, after a separator unless
    [a] is empty or already ends with one. *)
Definition path_join (a b : string) : string :=
  if prefix "/" b then b
  else if (a =? "") || ends_with_sep a then a ++ b
  else a ++ "/" ++ b.

Record generator : Type := mkGenerator { output_dir : string }.

(** [HighlightGenerator.__init__]: the attribute is set, then
    [os.makedirs] is evaluated and the unbound [os] raises; no object is
    returned. *)
Definition init (dir : string) : outcome generator :=
  let self := {| output_dir := dir |} in
  Raise NameError.

(** [self.save] on an instance: the class has no such attribute. *)
Definition save_attribute (self : generator) : outcome unit :=
  Raise AttributeError.

Definition default_output_dir : string := "highlights".

(** Frames below which no clip is written. *)
Definition min_frames : nat := 5.

Definition clip_name (shot_id : Z) : string :=
  "shot_" ++ str_of_int shot_id ++ ".mp4".

Section Save.

(** [shape] is [frame.shape]: height, width and channels. *)
Variable image : Type.
Variable shape : image -> Z * Z * Z.

(** The function [save] of the module.  [frames] is [None] for Python's
    [None].  With five frames or more the shape of the first one is read
    and the file name is built; then [os.path.join] is evaluated and the
    unbound [os] raises, before any video writer is opened. *)
Definition save (self : generator) (shot_id : Z) (frames : option (list image))
  (fps : Z) : outcome (option string) :=
  match frames with
  | None => Return None
  | Some [] => Return None
  | Some (first :: others) =>
      if (List.length (first :: others) <? min_frames)%nat then Return None
      else
        let '(h, w, _) := shape first in
        let filename := clip_name shot_id in
        Raise NameError
  end.

End Save.

End HighlightGenerator.

(** ** csv_logger.py *)

Module CSVLogger.

Local Open Scope string_scope.

(** A value handed to [csv.writer.writerow]. *)
Inductive cell : Type :=
| CStr (s : string)
| CInt (n : Z)
| CFloat (x : R).

Definition row : Type := list cell.

Definition header : row :=
  [ CStr "Timestamp"; CStr "FrameID"; CStr "ShotID"; CStr "Phase";
    CStr "ElbowAngle(deg)"; CStr "KneeAngle(deg)"; CStr "BatSpeed(km/h)";
    CStr "BallSpeed(km/h)"; CStr "ArmSpeed(km/h)"; CStr "CoachingFeedback" ].

(** The log files on disk, by name: the rows written so far. *)
Definition logs : Type := string -> option (list row).

Definition no_logs : logs := fun _ => None.

Definition append_row (disk : logs) (name : string) (r : row) : logs :=
  fun p =>
    if (p =? name) then Some (get_or (disk p) [] ++ [r])%list else disk p.

Record logger : Type := mkLogger { filename : string }.

Definition default_filename : string := "cricket_analysis.csv".

(** [open(name, "a")]: a missing file is created empty. *)
Definition open_append (disk : logs) (name : string) : logs :=
  fun p => if (p =? name) then Some (get_or (disk p) []) else disk p.

(** [CSVLogger.__init__] with [_init_file]: the header goes to a file
    that did not exist before. *)
Definition init (disk : logs) (name : string) : logs * logger :=
  let file_exists := match disk name with Some _ => true | None => false end in
  let disk1 := open_append disk name in
  let disk2 := if negb file_exists then append_row disk1 name header else disk1 in
  (disk2, {| filename := name |}).

(** The dictionary of the segmenter as [write] reads it. *)
Record shot_entry : Type := mkShotEntry {
  entry_id : option Z;
  entry_phase : option string
}.

(** The row [write] builds.  [now] is [datetime.now().isoformat(...)];
    the [timestamp] argument is not used by the source. *)
Definition build_row (now : string) (frame_id : Z) (shot : shot_entry)
  (elbow knee : option Z) (speed : speed_data) (feedback : option string) : row :=
  [ CStr now;
    CInt frame_id;
    CInt (get_or (entry_id shot) 0%Z);
    CStr (get_or (entry_phase shot) "Idle");
    CInt (get_or elbow 0%Z);
    CInt (get_or knee 0%Z);
    CFloat (get_or (speed_bat speed) 0%R);
    CFloat (get_or (speed_ball speed) 0%R);
    CFloat (get_or (speed_arm speed) 0%R);
    CStr (get_or feedback "") ].

(** [CSVLogger.write] *)
Definition write (disk : logs) (self : logger) (now : string) (frame_id : Z)
  (timestamp : R) (shot : shot_entry) (elbow knee : option Z)
  (speed : speed_data) (feedback : option string) : logs :=
  append_row disk (filename self)
    (build_row now frame_id shot elbow knee speed feedback).

(** One session: the logger is created and [write] is called once per
    entry. *)
Record entry : Type := mkEntry {
  e_now : string;
  e_frame_id : Z;
  e_timestamp : R;
  e_shot : shot_entry;
  e_elbow : option Z;
  e_knee : option Z;
  e_speed : speed_data;
  e_feedback : option string
}.

Definition write_entry (self : logger) (disk : logs) (e : entry) : logs :=
  write disk self (e_now e) (e_frame_id e) (e_timestamp e) (e_shot e)
    (e_elbow e) (e_knee e) (e_speed e) (e_feedback e).

Definition entry_row (e : entry) : row :=
  build_row (e_now e) (e_frame_id e) (e_shot e) (e_elbow e) (e_knee e)
    (e_speed e) (e_feedback e).

Definition session (disk : logs) (name : string) (entries : list entry) : logs :=
  let (disk1, self) := init disk name in
  fold_left (write_entry self) entries disk1.

Fixpoint sessions (disk : logs) (name : string) (runs : list (list entry)) : logs :=
  match runs with
  | [] => disk
  | entries :: rest => sessions (session disk name entries) name rest
  end.

End CSVLogger.

(** ** engine.py *)

Module CricketEngine.

Local Open Scope string_scope.

Section Engine.

(** OpenCV and the tracker, as in the components. *)
Variables image gray_image contour : Type.
Variable cvtColor : image -> gray_image.
Variable draw_ids : image -> list PoseEngine.detection -> option Z -> image.
Variable motion_contours : gray_image -> gray_image -> list contour.
Variable contourArea : contour -> R.
Variable boundingRect : contour -> Z * Z * Z * Z.

Record engine : Type := mkEngine {
  pose_engine : PoseEngine.engine;
  segmenter : ShotSegmenter.state image;
  speed : SpeedEstimator.state gray_image;
  coach : Coach.coach;
  logger : CSVLogger.logger;
  highlights : HighlightGenerator.generator;
  frame_id : Z
}.

Definition video_name : string := "Rohit_Sharma".

(** [CricketEngine.__init__]: the log files before the call; the log
    files after it and the engine, or the exception raised.  The five
    components are created first, the logger last of them, then the
    highlight generator, whose constructor raises.  Loading the tracker
    model in [PoseEngine()] is taken to succeed. *)
Definition init (disk : CSVLogger.logs) : CSVLogger.logs * outcome engine :=
  let (disk1, lg) := CSVLogger.init disk CSVLogger.default_filename in
  (disk1,
   hl <- HighlightGenerator.init ("highlights/" ++ video_name) ;;
   Return {| pose_engine := {| PoseEngine.target_id := None;
                               PoseEngine.engine_fps := 30 |};
             segmenter := ShotSegmenter.init image ShotSegmenter.default_buffer_size;
             speed := SpeedEstimator.init gray_image 30;
             coach := Coach.init;
             logger := lg;
             highlights := hl;
             frame_id := 0 |}).

(** The dictionary [ui_data]. *)
Record ui_data : Type := mkUi {
  ui_shot : Z;
  ui_phase : string;
  ui_track_id : string;
  ui_weight : string;
  ui_bat_speed : R;
  ui_ball_speed : R;
  ui_arm_speed : R;
  ui_feedback : string;
  ui_highlight : option string
}.

(** What one frame brings from outside: the image, what the tracker
    found on it and the wall-clock time. *)
Record frame_input : Type := mkInput {
  in_frame : image;
  in_results : option (list PoseEngine.detection);
  in_now : string;
  in_elapsed : R
}.

(** [CricketEngine.process_frame] on an engine object: the log files and
    the engine after the call, and what the call returns or raises.
    Segmenter and speed estimator are updated first.  On a frame that
    ends a shot, [self.highlights.save] is evaluated next and raises,
    [highlights] being a [HighlightGenerator]: nothing is logged and the
    frame counter stays.  On any other frame the row is logged, the
    counter goes up and no highlight is reported. *)
Definition process_frame (disk : CSVLogger.logs) (self : engine)
  (inp : frame_input) (frame_id_arg : option Z)
  : CSVLogger.logs * engine * outcome (image * ui_data) :=
  let fid := get_or frame_id_arg (frame_id self) in
  let pose := PoseEngine.process cvtColor draw_ids (pose_engine self)
                (in_frame inp) (in_results inp) in
  let (seg1, shot) := ShotSegmenter.update (segmenter self) pose fid in
  let (speed1, speed_d) :=
    SpeedEstimator.update motion_contours contourArea boundingRect
      (speed self) pose in
  let coach_d := Coach.evaluate (coach self) pose speed_d in
  let self1 :=
    {| pose_engine := pose_engine self;
       segmenter := seg1;
       speed := speed1;
       coach := coach self;
       logger := logger self;
       highlights := highlights self;
       frame_id := frame_id self |} in
  let looked_up :=
    if ShotSegmenter.ended shot
    then HighlightGenerator.save_attribute (highlights self)
    else Return tt in
  match looked_up with
  | Raise e => (disk, self1, Raise e)
  | Return _ =>
      let highlight_path : option string := None in
      let logs1 :=
        CSVLogger.write disk (logger self) (in_now inp) fid
          (round2 (in_elapsed inp))
          {| CSVLogger.entry_id := Some (ShotSegmenter.res_id shot);
             CSVLogger.entry_phase :=
               Some (ShotSegmenter.phase_name (ShotSegmenter.res_phase shot)) |}
          (pose_elbow pose) (pose_knee pose) speed_d
          (Some (Coach.feedback coach_d)) in
      let ui :=
        {| ui_shot := ShotSegmenter.res_id shot;
           ui_phase := ShotSegmenter.phase_name (ShotSegmenter.res_phase shot);
           ui_track_id := pose_track_id pose;
           ui_weight := pose_weight pose;
           ui_bat_speed := get_or (speed_bat speed_d) 0%R;
           ui_ball_speed := get_or (speed_ball speed_d) 0%R;
           ui_arm_speed := get_or (speed_arm speed_d) 0%R;
           ui_feedback := Coach.feedback coach_d;
           ui_highlight := highlight_path |} in
      (logs1,
       {| pose_engine := pose_engine self;
          segmenter := seg1;
          speed := speed1;
          coach := coach self;
          logger := logger self;
          highlights := highlights self;
          frame_id := (frame_id self + 1)%Z |},
       Return (pose_annotated pose, ui))
  end.

End Engine.

(** An engine object as the constructor would have left it, on a stand-in
    for OpenCV. *)
Definition replay_engine : engine unit SpeedEstimator.Replay.gray_image :=
  {| pose_engine := {| PoseEngine.target_id := None; PoseEngine.engine_fps := 30 |};
     segmenter := ShotSegmenter.init unit ShotSegmenter.default_buffer_size;
     speed := SpeedEstimator.Replay.start;
     coach := Coach.init;
     logger := {| CSVLogger.filename := CSVLogger.default_filename |};
     highlights := {| HighlightGenerator.output_dir := "highlights/Rohit_Sharma" |};
     frame_id := 0 |}.

Definition replay_frame : frame_input unit :=
  {| in_frame := tt; in_results := None;
     in_now := "2024-01-01T10:00:00"; in_elapsed := 0 |}.

End CricketEngine.

(** ** app.py: the pacing of the worker *)

Module VideoWorker.

(** [int(max(1, round(1000 / max(1, self._fps))))] for an integer frame
    rate. *)
Definition frame_delay_ms (fps : Z) : Z :=
  Z.max 1 (rint (1000 / IZR (Z.max 1 fps))).

(** The frame index [seek] asks the capture for:
    [max(0, int(frame_no))]. *)
Definition seek_target (frame_no : R) : Z := Z.max 0 (trunc frame_no).

End VideoWorker.

(** ** Invariants of the stateful components *)

(** What holds of a segmenter between calls: the counter is not
    negative, the buffer respects its capacity, it is empty while no shot
    is active, and an active shot carries the current counter and has at
    least its first frame buffered. *)
Definition segmenter_inv {image : Type} (s : ShotSegmenter.state image) : Prop :=
  (0 <= ShotSegmenter.shot_id s)%Z /\
  (List.length (ShotSegmenter.frame_buffer s) <= ShotSegmenter.buffer_size s)%nat /\
  match ShotSegmenter.current_shot s with
  | None => ShotSegmenter.frame_buffer s = []
  | Some sh =>
      ShotSegmenter.shot_ident sh = ShotSegmenter.shot_id s /\
      ((0 < ShotSegmenter.buffer_size s)%nat -> ShotSegmenter.frame_buffer s <> [])
  end.

(** The last [n] elements of a list: what a [deque(maxlen=n)] holds after
    the elements of the list have been appended to it one by one. *)
Definition keep_last {A : Type} (n : nat) (l : list A) : list A :=
  skipn (List.length l - n) l.

(** A flag, and whether a shot is active, as 0 or 1. *)
Definition flag_value (b : bool) : Z := if b then 1%Z else 0%Z.

Definition active_value {image : Type} (s : ShotSegmenter.state image) : Z :=
  match ShotSegmenter.current_shot s with Some _ => 1%Z | None => 0%Z end.

(** Number of results of a run that carry a flag. *)
Definition count_flag {image : Type} (flag : ShotSegmenter.result image -> bool)
  (rs : list (ShotSegmenter.result image)) : Z :=
  Z.of_nat (List.length (filter flag rs)).

(** What holds of a speed estimator between calls: frame rate and
    calibration are not negative, the smoothing weight is a proportion,
    the moving average and the samples in the window are not negative and
    the window holds at most [ball_window] samples. *)
Definition estimator_wf {gray_image : Type} (s : SpeedEstimator.state gray_image)
  : Prop :=
  (0 <= SpeedEstimator.fps s)%R /\
  (0 <= SpeedEstimator.meters_per_pixel s)%R /\
  (0 <= SpeedEstimator.alpha s <= 1)%R /\
  (forall e : R, SpeedEstimator.bat_ema s = Some e -> (0 <= e)%R) /\
  Forall (fun v : R => (0 <= v)%R) (SpeedEstimator.ball_speeds s) /\
  (List.length (SpeedEstimator.ball_speeds s) <= SpeedEstimator.ball_window)%nat.

(** Calling [SpeedEstimator.update] once per frame. *)
Fixpoint speed_run {image gray_image contour : Type}
  (motion_contours : gray_image -> gray_image -> list contour)
  (contourArea : contour -> R) (boundingRect : contour -> Z * Z * Z * Z)
  (s : SpeedEstimator.state gray_image)
  (poses : list (pose_data image gray_image))
  : SpeedEstimator.state gray_image * list speed_data :=
  match poses with
  | [] => (s, [])
  | pd :: rest =>
      let (s1, d) :=
        SpeedEstimator.update motion_contours contourArea boundingRect s pd in
      let (s2, ds) :=
        speed_run motion_contours contourArea boundingRect s1 rest in
      (s2, d :: ds)
  end.

(** The three speeds of a dictionary lie in their ranges: bat and ball
    speed from 0 to the cap of 160, arm speed from 0 to 96. *)
Definition speeds_in_range (d : speed_data) : Prop :=
  (exists bat, speed_bat d = Some bat /\ 0 <= bat <= 160)%R /\
  (exists ball, speed_ball d = Some ball /\ 0 <= ball <= 160)%R /\
  (exists arm, speed_arm d = Some arm /\ 0 <= arm <= 96)%R.

(** The log row that goes with what the interface is shown for a frame:
    same shot id, phase, speeds and feedback, under the frame's id and
    clock reading, with elbow and knee angle in degrees. *)
Definition ui_row (now : string) (fid elbow knee : Z) (ui : CricketEngine.ui_data)
  : CSVLogger.row :=
  [ CSVLogger.CStr now;
    CSVLogger.CInt fid;
    CSVLogger.CInt (CricketEngine.ui_shot ui);
    CSVLogger.CStr (CricketEngine.ui_phase ui);
    CSVLogger.CInt elbow;
    CSVLogger.CInt knee;
    CSVLogger.CFloat (CricketEngine.ui_bat_speed ui);
    CSVLogger.CFloat (CricketEngine.ui_ball_speed ui);
    CSVLogger.CFloat (CricketEngine.ui_arm_speed ui);
    CSVLogger.CStr (CricketEngine.ui_feedback ui) ].

(** Whether a frame ends a shot: one is active and the elbow angle of
    the frame is at most 90. *)
Definition ends_shot {image : Type} (s : ShotSegmenter.state image) (elbow : Z)
  : bool :=
  match ShotSegmenter.current_shot s with
  | Some _ => (elbow <=? 90)%Z
  | None => false
  end.

(** * Properties *)

(** ** Shot segmenter *)

Module SegmenterSpec.

Import ShotSegmenter.

Lemma detect_phase_backlift (e : Z) :
  detect_phase e = Backlift <-> (e > 150)%Z.
Proof.
  unfold detect_phase. rewrite !Z.gtb_ltb.
  destruct (Z.ltb_spec 150 e); [ | destruct (Z.ltb_spec 120 e);
    [ | destruct (Z.ltb_spec 90 e) ] ]; split; intro; try discriminate; try lia; auto.
Qed.

Lemma detect_phase_follow (e : Z) :
  detect_phase e = FollowThrough <-> (e <= 90)%Z.
Proof.
  unfold detect_phase. rewrite !Z.gtb_ltb.
  destruct (Z.ltb_spec 150 e); [ | destruct (Z.ltb_spec 120 e);
    [ | destruct (Z.ltb_spec 90 e) ] ]; split; intro; try discriminate; try lia; auto.
Qed.

Lemma phase_eqb_eq (p q : phase) : phase_eqb p q = true <-> p = q.
Proof. destruct p, q; simpl; split; intro H; congruence. Qed.

(** Unfolds the blocks of [update] and simplifies with the facts at hand
    about the shot in progress. *)
Ltac step_update H :=
  unfold update, active_id, end_shot, buffer_frame, start_shot; simpl;
  repeat (rewrite H; simpl); try reflexivity.

(** Settles the three parts of the statement about [frames] on a call
    that does not end a shot. *)
Ltac not_closing :=
  let absurd := (intros [? ?]; exfalso; (lia || congruence)) in
  split; [ split; [ let Hx := fresh "Hx" in
                    intro Hx; exfalso; apply Hx; reflexivity | absurd ] | ];
  split; [ split; [ discriminate | absurd ] | absurd ].

Section Facts.

Variables image gray_image : Type.

Let state := state image.
Let pose := pose_data image gray_image.

(** What [update] does when no shot is active and the phase does not
    start one. *)
Lemma update_idle (s : state) (pd : pose) (fid : Z) :
  current_shot s = None ->
  detect_phase (elbow_of pd) <> Backlift ->
  update s pd fid =
    (s, {| res_id := shot_id s; res_phase := detect_phase (elbow_of pd);
           started := false; ended := false; frames := None |}).
Proof.
  intros Hnone Hph. unfold elbow_of in *.
  destruct (detect_phase (get_or (pose_elbow pd) 0%Z)) eqn:E;
    try congruence; step_update Hnone; rewrite E; step_update Hnone.
Qed.

(** What [update] does on a follow-through frame while a shot is
    active. *)
Lemma update_end (s : state) (pd : pose) (fid : Z) (sh : shot) :
  current_shot s = Some sh ->
  detect_phase (elbow_of pd) = FollowThrough ->
  update s pd fid =
    ({| current_shot := None; shot_id := shot_id s; frame_buffer := [];
        buffer_size := buffer_size s |},
     {| res_id := shot_ident sh; res_phase := FollowThrough;
        started := false; ended := true;
        frames := Some (deque_append (buffer_size s) (frame_buffer s)
                          (pose_annotated pd)) |}).
Proof.
  intros Hsome Hph. unfold elbow_of in *.
  step_update Hsome. rewrite Hph. step_update Hsome.
Qed.

(** What [update] does on a backlift frame while no shot is active. *)
Lemma update_start (s : state) (pd : pose) (fid : Z) :
  current_shot s = None ->
  detect_phase (elbow_of pd) = Backlift ->
  update s pd fid =
    ({| current_shot := Some {| shot_ident := shot_id s + 1; start_frame := fid |};
        shot_id := shot_id s + 1;
        frame_buffer := deque_append (buffer_size s) [] (pose_annotated pd);
        buffer_size := buffer_size s |},
     {| res_id := (shot_id s + 1)%Z; res_phase := Backlift;
        started := true; ended := false; frames := None |}).
Proof.
  intros Hnone Hph. unfold elbow_of in *.
  step_update Hnone. rewrite Hph. step_update Hnone.
Qed.

(** While a shot is active and the phase is not the follow-through, the
    frame is buffered and nothing is handed out. *)
Lemma update_active (s : state) (pd : pose) (fid : Z) (sh : shot) :
  current_shot s = Some sh ->
  detect_phase (elbow_of pd) <> FollowThrough ->
  update s pd fid =
    ({| current_shot := Some sh; shot_id := shot_id s;
        frame_buffer := deque_append (buffer_size s) (frame_buffer s)
                          (pose_annotated pd);
        buffer_size := buffer_size s |},
     {| res_id := shot_ident sh; res_phase := detect_phase (elbow_of pd);
        started := false; ended := false; frames := None |}).
Proof.
  intros Hsome Hph. unfold elbow_of in *.
  destruct (detect_phase (get_or (pose_elbow pd) 0%Z)) eqn:E;
    try congruence; step_update Hsome; rewrite E; step_update Hsome.
Qed.

(** C4, as the code has it: with no shot active and an elbow angle of at
    most 150 (any phase but the backlift), [update] leaves the segmenter
    as it is and returns the shot counter, which is the id of the last
    shot started and 0 only until a first shot has started, with
    [started] and [ended] false and no frames. *)
Theorem idle_update_reports_counter (s : state) (pd : pose) (fid : Z) :
  current_shot s = None ->
  (elbow_of pd <= 150)%Z ->
  fst (update s pd fid) = s /\
  res_id (snd (update s pd fid)) = shot_id s /\
  started (snd (update s pd fid)) = false /\
  ended (snd (update s pd fid)) = false /\
  frames (snd (update s pd fid)) = None /\
  (shot_id s = 0%Z -> res_id (snd (update s pd fid)) = 0%Z).
Proof.
  intros Hnone Hle.
  assert (Hph : detect_phase (elbow_of pd) <> Backlift)
    by (rewrite detect_phase_backlift; lia).
  rewrite (update_idle s pd fid Hnone Hph); simpl. tauto.
Qed.

(** C6: the [frames] entry of the returned dictionary is set exactly on
    a call with an elbow angle of at most 90 (the follow-through) made
    while a shot is active.  On such a call the phase reported is the
    follow-through, [ended] is true, the frames returned are the whole
    buffer with the current frame appended, and the segmenter is left
    with no active shot and an empty buffer; a backlift frame after it
    starts the next shot, whose buffer then holds that frame alone. *)
Theorem frames_exactly_on_shot_end (s : state) (pd : pose) (fid : Z) :
  let s' := fst (update s pd fid) in
  let r := snd (update s pd fid) in
  let closing := (elbow_of pd <= 90)%Z /\ current_shot s <> None in
  (frames r <> None <-> closing) /\
  (ended r = true <-> closing) /\
  (closing ->
     res_phase r = FollowThrough /\
     frames r = Some (deque_append (buffer_size s) (frame_buffer s)
                        (pose_annotated pd)) /\
     current_shot s' = None /\
     frame_buffer s' = [] /\
     forall (pd2 : pose) (fid2 : Z),
       (elbow_of pd2 > 150)%Z ->
       let s2 := fst (update s' pd2 fid2) in
       let r2 := snd (update s' pd2 fid2) in
       started r2 = true /\
       res_id r2 = (shot_id s + 1)%Z /\
       current_shot s2 =
         Some {| shot_ident := shot_id s + 1; start_frame := fid2 |} /\
       frame_buffer s2 = deque_append (buffer_size s) [] (pose_annotated pd2)).
Proof.
  cbv zeta.
  destruct (current_shot s) as [sh|] eqn:Hcur.
  - destruct (Z_le_gt_dec (elbow_of pd) 90) as [Hle|Hgt].
    + assert (Hph : detect_phase (elbow_of pd) = FollowThrough)
        by (apply detect_phase_follow; exact Hle).
      rewrite (update_end s pd fid Hcur Hph); simpl.
      assert (Hcl : (elbow_of pd <= 90)%Z /\ Some sh <> None)
        by (split; [exact Hle | discriminate]).
      split; [ split; [ intros _; exact Hcl | discriminate ] | ].
      split; [ split; [ intros _; exact Hcl | reflexivity ] | ].
      intros _. repeat (split; [ reflexivity | ]).
      intros pd2 fid2 Hback.
      rewrite update_start;
        [ simpl; repeat split | reflexivity
        | apply detect_phase_backlift; exact Hback ].
    + assert (Hph : detect_phase (elbow_of pd) <> FollowThrough)
        by (rewrite detect_phase_follow; lia).
      rewrite (update_active s pd fid Hcur Hph); simpl. not_closing.
  - destruct (Z_le_gt_dec (elbow_of pd) 150) as [Hle|Hgt].
    + assert (Hph : detect_phase (elbow_of pd) <> Backlift)
        by (rewrite detect_phase_backlift; lia).
      rewrite (update_idle s pd fid Hcur Hph); simpl. not_closing.
    + assert (Hph : detect_phase (elbow_of pd) = Backlift)
        by (apply detect_phase_backlift; exact Hgt).
      rewrite (update_start s pd fid Hcur Hph); simpl. not_closing.
Qed.

(** Whatever the state, a frame whose elbow
    angle is at most 90 leaves no shot active; a shot that was in
    progress is reported as ended, its buffered frames are handed out
    and the buffer is emptied. *)
Lemma update_follow_through (s : state) (pd : pose) (fid : Z) :
  (elbow_of pd <= 90)%Z ->
  res_phase (snd (update s pd fid)) = FollowThrough /\
  current_shot (fst (update s pd fid)) = None /\
  (current_shot s <> None ->
     ended (snd (update s pd fid)) = true /\
     frames (snd (update s pd fid)) =
       Some (deque_append (buffer_size s) (frame_buffer s) (pose_annotated pd)) /\
     frame_buffer (fst (update s pd fid)) = []).
Proof.
  intro Hle.
  assert (Hph : detect_phase (elbow_of pd) = FollowThrough)
    by (apply detect_phase_follow; exact Hle).
  destruct (current_shot s) as [sh|] eqn:Hcur.
  - rewrite (update_end s pd fid Hcur Hph); simpl. auto.
  - assert (Hnb : detect_phase (elbow_of pd) <> Backlift) by congruence.
    rewrite (update_idle s pd fid Hcur Hnb); simpl.
    repeat split; auto; congruence.
Qed.

End Facts.

(** C4 as stated fails: after one complete shot (a backlift frame, then a
    follow-through frame) no shot is active, and a frame with elbow angle
    100, which is not a backlift, is answered with shot id 1, not 0. *)
Lemma idle_id_not_zero :
  let s := fst (run fresh 0 [elbow_frame 160; elbow_frame 80]) in
  current_shot s = None /\
  detect_phase (elbow_of (elbow_frame 100)) <> Backlift /\
  res_id (snd (update s (elbow_frame 100) 2)) = 1%Z /\
  res_id (snd (update s (elbow_frame 100) 2)) <> 0%Z /\
  started (snd (update s (elbow_frame 100) 2)) = false /\
  ended (snd (update s (elbow_frame 100) 2)) = false.
Proof. vm_compute. repeat split; discriminate. Qed.

Lemma idle_update_reports_counter_witness :
  let s := fst (run fresh 0 [elbow_frame 160; elbow_frame 80]) in
  fst (update s (elbow_frame 100) 2) = s /\
  res_id (snd (update s (elbow_frame 100) 2)) = shot_id s.
Proof.
  cbv zeta.
  destruct (@idle_update_reports_counter unit unit
              (fst (run fresh 0 [elbow_frame 160; elbow_frame 80]))
              (elbow_frame 100) 2) as (H1 & H2 & _).
  - reflexivity.
  - vm_compute. discriminate.
  - split; assumption.
Defined.

End SegmenterSpec.

(** ** Comparisons on floats *)

Lemma Rltb_true (x y : R) : Rltb x y = true <-> (x < y)%R.
Proof. unfold Rltb. destruct (Rlt_dec x y); split; intro; congruence || auto. Qed.

Lemma Rltb_false (x y : R) : Rltb x y = false <-> (y <= x)%R.
Proof.
  unfold Rltb. destruct (Rlt_dec x y); split; intro; try discriminate; try lra; auto.
Qed.

Lemma Rleb_true (x y : R) : Rleb x y = true <-> (x <= y)%R.
Proof. unfold Rleb. destruct (Rle_dec x y); split; intro; congruence || auto. Qed.

Lemma truthy_float_true (x : R) : truthy_float x = true <-> x <> 0%R.
Proof.
  unfold truthy_float. destruct (Req_dec_T x 0); split; intro; congruence || auto.
Qed.

Lemma truthy_float_zero : truthy_float 0 = false.
Proof. unfold truthy_float. destruct (Req_dec_T 0 0); congruence. Qed.

(** ** Coach *)

Module CoachSpec.

Import Coach.

Section Facts.

Variables image gray_image : Type.

Let pose := pose_data image gray_image.

(** [evaluate] is the first match in the ordered rule table. *)
Lemma evaluate_first_match (self : coach) (pd : pose) (sd : speed_data) :
  feedback (evaluate self pd sd) =
    first_match (rule_table self) (read pd sd) msg_default.
Proof.
  unfold evaluate, rule_table; simpl.
  repeat match goal with
         | |- context [if ?g then _ else _] => destruct g; try reflexivity
         end.
Qed.

(** C5: [evaluate] returns the message of the first rule, in the order
    bat speed, elbow, knee, arm speed, ball speed, praise, whose guard
    holds, and the fallback message when none does; each of the five
    numeric guards is false when the value it tests is zero; with bat
    speed 50 and elbow angle 100 the feedback is the bat-speed message,
    not the elbow message; with bat speed 0 the feedback is never the
    bat-speed message. *)
Theorem coach_priority_and_zero_skip :
  (forall (self : coach) (pd : pose) (sd : speed_data),
      feedback (evaluate self pd sd) =
        first_match (rule_table self) (read pd sd) msg_default) /\
  (forall (self : coach) (v : readings),
      (bat_speed v = 0%R -> bat_rule self v = false) /\
      (elbow v = 0%Z -> elbow_rule self v = false) /\
      (knee v = 0%Z -> knee_rule self v = false) /\
      (arm_speed v = 0%R -> arm_rule v = false) /\
      (ball_speed v = 0%R -> ball_rule v = false)) /\
  (forall (pd : pose) (sd : speed_data),
      speed_bat sd = Some 50%R ->
      pose_elbow pd = Some 100%Z ->
      feedback (evaluate init pd sd) = msg_power /\
      feedback (evaluate init pd sd) <> msg_elbow) /\
  (forall (self : coach) (pd : pose) (sd : speed_data),
      get_or (speed_bat sd) 0%R = 0%R ->
      feedback (evaluate self pd sd) <> msg_power).
Proof.
  split; [ exact evaluate_first_match | ].
  split; [ | split ].
  - intros self v. unfold bat_rule, elbow_rule, knee_rule, arm_rule, ball_rule.
    repeat split; intros ->; try rewrite truthy_float_zero; reflexivity.
  - intros pd sd Hbat Hel.
    assert (Hfire : bat_rule init (read pd sd) = true).
    { unfold bat_rule, read; simpl. rewrite Hbat; simpl.
      apply andb_true_intro; split.
      - apply truthy_float_true; lra.
      - apply Rltb_true; lra. }
    unfold evaluate. rewrite Hfire. simpl. split; [ reflexivity | discriminate ].
  - intros self pd sd Hbat.
    assert (Hskip : bat_rule self (read pd sd) = false).
    { unfold bat_rule, read; simpl. rewrite Hbat, truthy_float_zero. reflexivity. }
    unfold evaluate. rewrite Hskip.
    repeat match goal with
           | |- context [if ?g then _ else _] => destruct g
           end; simpl; discriminate.
Qed.

End Facts.

End CoachSpec.

(** ** Rounding and norms *)

Local Open Scope R_scope.

Lemma rint_near (x : R) (z : Z) :
  IZR z <= x < IZR z + 1 / 2 -> rint x = z.
Proof.
  intros [Hlo Hhi]. unfold rint.
  assert (Hip : Int_part x = z) by (symmetry; apply Int_part_spec; lra).
  rewrite Hip. destruct (Rlt_dec (x - IZR z) (1 / 2)); [ reflexivity | lra ].
Qed.

Lemma round2_near (x : R) (z : Z) :
  IZR z <= x * 100 < IZR z + 1 / 2 -> round2 x = IZR z / 100.
Proof. intro H. unfold round2. rewrite (rint_near _ H). reflexivity. Qed.

Lemma py_min_below (a b : R) : a <= b -> py_min a b = a.
Proof. intro H. unfold py_min. destruct (Rlt_dec b a); [ lra | reflexivity ]. Qed.

Lemma py_min_above (a b : R) : b < a -> py_min a b = b.
Proof. intro H. unfold py_min. destruct (Rlt_dec b a); [ reflexivity | lra ]. Qed.

(** Two positions on the same row, the second to the right of the first. *)
Lemma px_norm_row (x0 x1 y : Z) :
  (x0 <= x1)%Z -> px_norm (x1, y) (x0, y) = IZR (x1 - x0).
Proof.
  intro H. unfold px_norm; simpl. rewrite Z.sub_diag.
  replace (IZR (x1 - x0) * IZR (x1 - x0) + 0 * 0)
    with (IZR (x1 - x0) * IZR (x1 - x0)) by lra.
  apply sqrt_square. apply IZR_le. lia.
Qed.

(** ** Speed estimator *)

Module SpeedSpec.

Import SpeedEstimator.

Section BatFacts.

Variable gray_image : Type.

Let state := state gray_image.

(** [_bat_speed] never touches the calibration, the frame rate or the
    smoothing weight. *)
Lemma bat_speed_keeps_config (s : state) (w : option pixel) :
  fps (fst (_bat_speed s w)) = fps s /\
  meters_per_pixel (fst (_bat_speed s w)) = meters_per_pixel s /\
  alpha (fst (_bat_speed s w)) = alpha s.
Proof.
  unfold _bat_speed. destruct w as [w|]; [ destruct (prev_wrist s) | ];
    simpl; auto.
Qed.

Lemma reported_value (e : R) (z : Z) :
  IZR z <= e * 100 < IZR z + 1 / 2 -> e <= 160 -> reported e = IZR z / 100.
Proof.
  intros Hz Hcap. unfold reported. rewrite (py_min_below Hcap).
  apply round2_near; exact Hz.
Qed.

(** C10: a call without a wrist returns 0, leaves the moving average as
    it was and clears the previous wrist; the call after it, made with a
    wrist, returns 0 as well, leaves the average untouched and only
    stores the wrist. *)
Theorem missing_wrist_restarts_tracking (s : state) (w : pixel) :
  let s1 := fst (_bat_speed s None) in
  let s2 := fst (_bat_speed s1 (Some w)) in
  snd (_bat_speed s None) = 0 /\
  bat_ema s1 = bat_ema s /\
  prev_wrist s1 = None /\
  s1 = set_prev_wrist s None /\
  snd (_bat_speed s1 (Some w)) = 0 /\
  bat_ema s2 = bat_ema s /\
  prev_wrist s2 = Some w /\
  s2 = set_prev_wrist s (Some w).
Proof.
  assert (H1 : _bat_speed s None = (set_prev_wrist s None, 0))
    by reflexivity.
  assert (H2 : _bat_speed (set_prev_wrist s None) (Some w)
               = (set_prev_wrist s (Some w), 0)) by reflexivity.
  cbv zeta. rewrite H1; cbn [fst snd]. rewrite H2; cbn [fst snd].
  repeat split.
Qed.

End BatFacts.

Section BallFacts.

Variables gray_image contour : Type.
Variable motion_contours : gray_image -> gray_image -> list contour.
Variable contourArea : contour -> R.
Variable boundingRect : contour -> Z * Z * Z * Z.

Let state := state gray_image.
Let ball_speed := _ball_speed motion_contours contourArea boundingRect.
Let no_contour := no_qualifying_contour motion_contours contourArea.

(** The first frame only becomes the previous frame. *)
Lemma ball_speed_first (s : state) (gray : gray_image) :
  prev_gray s = None ->
  ball_speed s gray = (set_prev_gray s (Some gray), 0).
Proof. intro H. unfold ball_speed, _ball_speed. rewrite H. reflexivity. Qed.

(** A frame without a qualifying contour only becomes the previous
    frame. *)
Lemma ball_speed_miss (s : state) (pg gray : gray_image) :
  prev_gray s = Some pg ->
  no_contour pg gray ->
  ball_speed s gray = (set_prev_gray s (Some gray), 0).
Proof.
  intros Hpg Hno. unfold ball_speed, _ball_speed. rewrite Hpg.
  unfold no_contour, no_qualifying_contour in Hno.
  destruct (motion_contours pg gray) as [|c0 rest]; [ reflexivity | ].
  cbv zeta in Hno |- *.
  destruct Hno as [Hsmall | Hlarge].
  - rewrite (proj2 (Rltb_true _ _) Hsmall). reflexivity.
  - rewrite (proj2 (Rltb_true 300 _)) by lra. rewrite orb_true_r. reflexivity.
Qed.

(** A frame whose largest contour qualifies. *)
Lemma ball_speed_hit (s : state) (pg gray : gray_image) (c0 : contour)
  (rest : list contour) (x y w h : Z) :
  prev_gray s = Some pg ->
  motion_contours pg gray = c0 :: rest ->
  5 <= contourArea (max_by contourArea c0 rest) <= 300 ->
  boundingRect (max_by contourArea c0 rest) = (x, y, w, h) ->
  let center := ((x + w / 2)%Z, (y + h / 2)%Z) in
  let s1 := set_prev_ball_center (set_prev_gray s (Some gray)) (Some center) in
  ball_speed s gray =
    match prev_ball_center s with
    | None => (s1, 0)
    | Some pc =>
        let speed := px_norm center pc * meters_per_pixel s * fps s * 3.6 in
        let window := deque_append ball_window (ball_speeds s) speed in
        (set_ball_speeds s1 window, reported (mean window))
    end.
Proof.
  intros Hpg Hcs [Hlo Hhi] Hrect. unfold ball_speed, _ball_speed.
  rewrite Hpg, Hcs. cbv zeta.
  rewrite (proj2 (Rltb_false _ 5)) by lra.
  rewrite (proj2 (Rltb_false 300 _)) by lra.
  rewrite Hrect. simpl. destruct (prev_ball_center s); reflexivity.
Qed.

(** What [_ball_speed] does on a frame without a qualifying contour: the
    speed returned is 0 and the rolling window is left as it was; the
    stored centre of the ball is left as it was too, it is not cleared;
    the only change to the estimator is that the frame becomes the
    previous frame.  So when the next frame has a qualifying contour, the
    sample added to the window is the distance from the centre stored
    before the gap. *)
Lemma ball_miss_keeps_window_and_center (s : state) (pg gray : gray_image) :
  prev_gray s = Some pg ->
  no_contour pg gray ->
  snd (ball_speed s gray) = 0 /\
  ball_speeds (fst (ball_speed s gray)) = ball_speeds s /\
  prev_ball_center (fst (ball_speed s gray)) = prev_ball_center s /\
  fst (ball_speed s gray) = set_prev_gray s (Some gray) /\
  forall (next : gray_image) (c0 : contour) (rest : list contour)
         (x y w h : Z) (pc : pixel),
    motion_contours gray next = c0 :: rest ->
    5 <= contourArea (max_by contourArea c0 rest) <= 300 ->
    boundingRect (max_by contourArea c0 rest) = (x, y, w, h) ->
    prev_ball_center s = Some pc ->
    ball_speeds (fst (ball_speed (fst (ball_speed s gray)) next)) =
      deque_append ball_window (ball_speeds s)
        (px_norm ((x + w / 2)%Z, (y + h / 2)%Z) pc
         * meters_per_pixel s * fps s * 3.6).
Proof.
  intros Hpg Hno. rewrite (@ball_speed_miss s pg gray Hpg Hno).
  repeat (split; [ reflexivity | ]).
  intros next c0 rest x y w h pc Hcs Harea Hrect Hpc. cbn [fst].
  rewrite (@ball_speed_hit (set_prev_gray s (Some gray)) gray next c0 rest
             x y w h eq_refl Hcs Harea Hrect).
  cbn [prev_ball_center set_prev_gray]. rewrite Hpc. reflexivity.
Qed.

End BallFacts.

(** The first two frames of the replay bring the estimator to
    [Replay.tracking]. *)
Lemma replay_reaches_tracking :
  fst (Replay.ball_frames Replay.start [Replay.still; Replay.ball_at_10])
  = Replay.tracking.
Proof.
  unfold Replay.ball_frames. cbn [ball_run].
  rewrite ball_speed_first by reflexivity.
  erewrite ball_speed_hit;
    [ | reflexivity | reflexivity | simpl; unfold Replay.contourArea; simpl; lra
      | reflexivity ].
  reflexivity.
Qed.

(** C2: the code does not reset the stored centre of the ball on a frame
    without a qualifying contour, where [_bat_speed] does clear the stored
    wrist on a frame without one.  The blob is seen at (10,10); on the
    next frame nothing moves, so there is no contour: the speed returned
    is 0, and the stored centre is still (10,10) after it.  When the blob
    is seen again at (20,10) the distance is taken from the stale centre
    and a speed of 2.7 is returned, where a restarted tracker would
    return 0. *)
Theorem ball_center_not_reset :
  let s := fst (Replay.ball_frames Replay.start [Replay.still; Replay.ball_at_10]) in
  let s' := fst (Replay.ball_speed s Replay.still) in
  prev_gray s = Some Replay.ball_at_10 /\
  no_qualifying_contour Replay.motion_contours Replay.contourArea
    Replay.ball_at_10 Replay.still /\
  snd (Replay.ball_speed s Replay.still) = 0 /\
  prev_ball_center s' = Some (10, 10)%Z /\
  prev_ball_center s' <> None /\
  snd (Replay.ball_speed s' Replay.ball_at_20) = 2.7.
Proof.
  cbv zeta. rewrite replay_reaches_tracking.
  assert (Hmiss : Replay.ball_speed Replay.tracking Replay.still
                  = (set_prev_gray Replay.tracking (Some Replay.still), 0))
    by reflexivity.
  rewrite Hmiss. cbn [fst snd].
  repeat (split; [ first [ reflexivity | exact I | discriminate ] | ]).
  assert (Hhit : snd (Replay.ball_speed
                        (set_prev_gray Replay.tracking (Some Replay.still))
                        Replay.ball_at_20)
                 = reported
                     (mean [px_norm (20, 10)%Z (10, 10)%Z * 0.0025 * 30 * 3.6])).
  { unfold Replay.ball_speed.
    rewrite (@ball_speed_hit _ _ Replay.motion_contours Replay.contourArea
               Replay.boundingRect
               (set_prev_gray Replay.tracking (Some Replay.still))
               Replay.still Replay.ball_at_20 (50, (18, 8, 4, 4)%Z) []
               18 8 4 4);
      [ reflexivity | reflexivity | reflexivity
      | simpl; unfold Replay.contourArea; simpl; lra | reflexivity ]. }
  rewrite Hhit, (@px_norm_row 10 20 10) by lia.
  unfold mean. simpl.
  rewrite (@reported_value ((10 * 0.0025 * 30 * 3.6 + 0) / 1) 270) by lra.
  lra.
Qed.

Lemma ball_miss_keeps_center_replay :
  prev_ball_center (fst (Replay.ball_speed Replay.tracking Replay.still))
  = prev_ball_center Replay.tracking.
Proof.
  apply (@ball_miss_keeps_window_and_center _ _ Replay.motion_contours
           Replay.contourArea Replay.boundingRect Replay.tracking
           Replay.ball_at_10 Replay.still).
  - reflexivity.
  - exact I.
Defined.

End SpeedSpec.

(** ** Bat speed in floating point *)

(** In the arithmetic of the real numbers the float code is the
    estimator of [SpeedEstimator]: same state after the call, same
    value. *)
Lemma bat_speed_real_reading (gray_image : Type)
  (s : SpeedEstimator.state gray_image) (w : option pixel) :
  @SpeedEstimatorF._bat_speed R real_ops gray_image (SpeedEstimatorF.of_reals s) w =
    (SpeedEstimatorF.of_reals (fst (SpeedEstimator._bat_speed s w)),
     snd (SpeedEstimator._bat_speed s w)).
Proof.
  assert (Hmin : forall a b : R, @SpeedEstimatorF.py_min R real_ops a b = py_min a b).
  { intros a b. unfold SpeedEstimatorF.py_min, py_min. cbn [f_lt real_ops].
    unfold Rltb. destruct (Rlt_dec b a); reflexivity. }
  assert (H160 : @f_lit R real_ops 160 0 = 160%R) by (cbn; lra).
  assert (H36 : @f_lit R real_ops 36 1 = 3.6%R) by (cbn; lra).
  assert (H0 : @f_lit R real_ops 0 0 = 0%R) by (cbn; lra).
  unfold SpeedEstimatorF._bat_speed, SpeedEstimator._bat_speed.
  destruct w as [w|]; cbn [SpeedEstimatorF.prev_wrist SpeedEstimatorF.of_reals];
    [ destruct (SpeedEstimator.prev_wrist s) as [pw|] | ];
    cbv zeta; cbn [fst snd]; rewrite ?H0; try reflexivity.
  rewrite Hmin, H160, H36.
  destruct s as [f m pw0 [e|] al pg pc bs]; reflexivity.
Qed.

Module FloatSpeedSpec.

Import SpeedEstimatorF.

Section Facts.

Context {F : Type} {ops : Floating F}.
Variable gray_image : Type.

Let state := @state F gray_image.

Local Open Scope fl_scope.

(** A frame with a wrist, when the previous frame had one too. *)
Lemma bat_speed_step (s : state) (w pw : pixel) :
  prev_wrist s = Some pw ->
  let raw := px_norm w pw * meters_per_pixel s * fps s * f_lit 36 1 in
  let ema := match bat_ema s with
             | None => raw
             | Some e => alpha s * raw + (f_of_int 1 - alpha s) * e
             end in
  _bat_speed s (Some w) =
    (set_bat_ema (set_prev_wrist s (Some w)) (Some ema), reported ema).
Proof. intro H. unfold _bat_speed. rewrite H. reflexivity. Qed.

(** Once tracking is under way, the values reported for a run of frames
    that all have a wrist follow the recurrence. *)
Lemma bat_run_steps (ws : list pixel) :
  forall (s : state) (pw : pixel) (e : F),
    prev_wrist s = Some pw ->
    bat_ema s = Some e ->
    snd (bat_run s (map Some ws)) =
      map reported
        (ema_from (alpha s) e (raw_speeds (meters_per_pixel s) (fps s) pw ws)).
Proof.
  induction ws as [|w ws IH]; intros s pw e Hpw He; [ reflexivity | ].
  cbn [map bat_run]. rewrite (bat_speed_step s w Hpw). rewrite He. cbv zeta.
  match goal with
  | |- context [bat_run ?s1 _] =>
      specialize (IH s1 w
                    (alpha s * (px_norm w pw * meters_per_pixel s * fps s * f_lit 36 1)
                     + (f_of_int 1 - alpha s) * e) eq_refl eq_refl);
      destruct (bat_run s1 (map Some ws)) as [s2 vs] eqn:Hrun
  end.
  simpl in *. rewrite IH. reflexivity.
Qed.

(** The same from the first pair of wrists on, when no average is stored
    yet. *)
Lemma bat_run_from_seed (ws : list pixel) (s : state) (pw : pixel) :
  prev_wrist s = Some pw ->
  bat_ema s = None ->
  snd (bat_run s (map Some ws)) =
    map reported
      (ema_seq (alpha s) (raw_speeds (meters_per_pixel s) (fps s) pw ws)).
Proof.
  intros Hpw He. destruct ws as [|w ws]; [ reflexivity | ].
  cbn [map bat_run]. rewrite (bat_speed_step s w Hpw). rewrite He. cbv zeta.
  match goal with
  | |- context [bat_run ?s1 _] =>
      pose proof (@bat_run_steps ws s1 w
                    (px_norm w pw * meters_per_pixel s * fps s * f_lit 36 1)
                    eq_refl eq_refl) as IH;
      destruct (bat_run s1 (map Some ws)) as [s2 vs] eqn:Hrun
  end.
  simpl in *. rewrite IH. reflexivity.
Qed.

(** A fresh estimator answers the first wrist with [0.0] and the wrists
    after it with the reported averages. *)
Lemma bat_run_fresh (fps0 : F) (w : pixel) (ws : list pixel) :
  snd (bat_run (init gray_image fps0) (map Some (w :: ws))) =
    f_lit 0 0
      :: map reported (ema_seq (f_lit 3 1) (raw_speeds (f_lit 25 4) fps0 w ws)).
Proof.
  cbn [map bat_run]. unfold _bat_speed at 1. cbn [prev_wrist init].
  pose proof (@bat_run_from_seed ws (set_prev_wrist (init gray_image fps0) (Some w)) w
                eq_refl eq_refl) as H.
  destruct (bat_run _ (map Some ws)) as [s2 vs]. simpl in H. simpl.
  rewrite H. reflexivity.
Qed.

(** Frames without a wrist leave a fresh estimator as it is. *)
Lemma bat_run_skip (fps0 : F) (n : nat) (l : list (option pixel)) :
  snd (bat_run (init gray_image fps0) (repeat None n ++ l)) =
    (repeat (f_lit 0 0) n ++ snd (bat_run (init gray_image fps0) l))%list.
Proof.
  induction n as [|n IH]; [ reflexivity | ].
  cbn [repeat app bat_run].
  change (_bat_speed (init gray_image fps0) None)
    with (init gray_image fps0, f_lit 0 0).
  cbv beta iota.
  destruct (bat_run (init gray_image fps0) (repeat None n ++ l)) as [s2 vs].
  cbn [snd] in IH |- *. rewrite IH. reflexivity.
Qed.

End Facts.

Section Binary64Facts.

Import PrimFloat.
Local Open Scope float_scope.
Local Set Warnings "-inexact-float".

Variable lib : Binary64.library.

Let ops64 : Floating float := Binary64.ops lib.
Let round2 := Binary64.round2 lib.

(** The decimal literals of the source and of the example denote the
    doubles that Rocq's own literals denote. *)
Lemma binary64_literals :
  Binary64.lit 25 4 = 0.0025 /\ Binary64.lit 3 1 = 0.3 /\
  Binary64.lit 36 1 = 3.6 /\ Binary64.lit 160 0 = 160 /\
  Binary64.lit 0 0 = 0 /\ Binary64.of_int 30 = 30 /\
  Binary64.lit 27 1 = 2.7 /\ Binary64.lit 54 1 = 5.4 /\
  Binary64.lit 189 2 = 1.89 /\ Binary64.lit 2943 3 = 2.943.
Proof. vm_compute. repeat split. Qed.

Lemma documented_sequence_binary64 :
  @raw_speeds float ops64 0.0025 30 (0, 0)%Z documented_wrists
    = [2.7; 0; 5.4] /\
  @ema_seq float ops64 0.3 [2.7; 0; 5.4] = [2.7; 1.89; 2.943] /\
  snd (@bat_run float ops64 unit (@init float ops64 unit 30)
         (map Some ((0, 0)%Z :: documented_wrists)))
    = [0; round2 2.7; round2 1.89; round2 2.943].
Proof. vm_compute. repeat split. Qed.

(** Where rounding shows: a wrist that rests for a frame and then moves
    15 pixels.  The average [0.3 * raw + (1 - 0.3) * 0] is a double below
    the one nearest to 1.215, on the other side of the tie between 1.21
    and 1.22. *)
Lemma resting_wrist_binary64 :
  snd (@bat_run float ops64 unit (@init float ops64 unit 30)
         (map Some [(0, 0); (0, 0); (15, 0)]%Z))
    = [0; round2 0; round2 1.2149999999999999] /\
  ltb 1.2149999999999999 1.215 = true.
Proof. vm_compute. repeat split. Qed.

End Binary64Facts.

(** C1: in whatever floating-point arithmetic the estimator runs, a
    fresh estimator, also after any number of frames without a wrist,
    answers the first wrist with [0.0] and only stores it as the previous
    position; for the wrists that follow, the raw speed is the pixel
    distance to the previous wrist times 0.0025 times the frame rate times
    3.6, and the values returned are the averages
    [ema_n = 0.3 * raw_n + (1 - 0.3) * ema_(n-1)], started at the first raw
    speed, each capped at 160 and rounded to two decimals, every operation
    being the one of that arithmetic.  In binary64, for the wrists (0,0),
    (10,0), (10,0), (30,0) at 30 frames a second, the raw speeds are the
    doubles 2.7, 0 and 5.4, the averages the doubles 2.7, 1.89 and 2.943,
    and the values returned are [0.0] and these averages rounded,
    whatever [round(x, 2)] makes of them. *)
Theorem bat_speed_follows_ema (F : Type) (ops : Floating F) (gray_image : Type)
  (fps0 : F) (k : nat) (w1 : pixel) (ws : list pixel)
  (lib : Binary64.library) :
  let s0 : @state F gray_image := init gray_image fps0 in
  let ops64 : Floating PrimFloat.float := Binary64.ops lib in
  let round2 := Binary64.round2 lib in
  let s30 : @state PrimFloat.float unit :=
    @init PrimFloat.float ops64 unit (Binary64.of_int 30) in
  let raws64 : list PrimFloat.float :=
    [Binary64.lit 27 1; Binary64.of_int 0; Binary64.lit 54 1] in
  _bat_speed s0 (Some w1) = (set_prev_wrist s0 (Some w1), f_lit 0 0) /\
  snd (bat_run s0 (repeat None k ++ map Some (w1 :: ws))) =
    (repeat (f_lit 0 0) k
       ++ f_lit 0 0
            :: map reported
                 (ema_seq (f_lit 3 1) (raw_speeds (f_lit 25 4) fps0 w1 ws)))%list /\
  @raw_speeds PrimFloat.float ops64 (Binary64.lit 25 4) (Binary64.of_int 30)
    (0, 0)%Z documented_wrists = raws64 /\
  @ema_seq PrimFloat.float ops64 (Binary64.lit 3 1) raws64
    = [Binary64.lit 27 1; Binary64.lit 189 2; Binary64.lit 2943 3] /\
  snd (@bat_run PrimFloat.float ops64 unit s30
         (map Some ((0, 0)%Z :: documented_wrists)))
    = [Binary64.lit 0 0; round2 (Binary64.lit 27 1);
       round2 (Binary64.lit 189 2); round2 (Binary64.lit 2943 3)].
Proof.
  cbv zeta. split; [ reflexivity | ].
  split; [ rewrite bat_run_skip, bat_run_fresh; reflexivity | ].
  vm_compute. repeat split.
Qed.

End FloatSpeedSpec.

(** ** Pose engine *)

Module PoseSpec.

Import PoseEngine.

Lemma clip_bounds (x lo hi : R) : lo <= hi -> lo <= clip x lo hi <= hi.
Proof.
  intro H. unfold clip, Rmin, Rmax.
  destruct (Rle_dec x lo); destruct (Rle_dec _ hi); lra.
Qed.

Lemma clip_inside (x lo hi : R) : lo <= x <= hi -> clip x lo hi = x.
Proof.
  intro H. unfold clip, Rmin, Rmax.
  destruct (Rle_dec x lo); destruct (Rle_dec _ hi); lra.
Qed.

Lemma clip_above (x lo hi : R) : lo <= hi -> hi <= x -> clip x lo hi = hi.
Proof.
  intros H1 H2. unfold clip, Rmin, Rmax.
  destruct (Rle_dec x lo); destruct (Rle_dec _ hi); lra.
Qed.

Lemma clip_below (x lo hi : R) : lo <= hi -> x <= lo -> clip x lo hi = lo.
Proof.
  intros H1 H2. unfold clip, Rmin, Rmax.
  destruct (Rle_dec x lo); destruct (Rle_dec _ hi); lra.
Qed.

(** [int] of a float between two integers lies between them. *)
Lemma trunc_bounds (x : R) (lo hi : Z) :
  (0 <= lo)%Z -> IZR lo <= x <= IZR hi -> (lo <= trunc x <= hi)%Z.
Proof.
  intros Hlo [Hx1 Hx2]. unfold trunc.
  assert (0 <= IZR lo) by (apply IZR_le; exact Hlo).
  destruct (Rle_dec 0 x) as [_|Hneg]; [ | lra ].
  destruct (base_Int_part x) as [Hle Hgt].
  split.
  - apply Z.lt_succ_r. apply lt_IZR. rewrite succ_IZR. lra.
  - apply le_IZR. lra.
Qed.










(** C8: exchanging the two end points while the vertex stays in the
    middle gives the same result, number or exception. *)
Theorem calculate_angle_symmetric (a b c : point) :
  calculate_angle a b c = calculate_angle c b a.
Proof.
  unfold calculate_angle.
  replace (dot (vsub c b) (vsub a b)) with (dot (vsub a b) (vsub c b))
    by (unfold dot; ring).
  replace (norm (vsub c b) * norm (vsub a b))
    with (norm (vsub a b) * norm (vsub c b)) by ring.
  reflexivity.
Qed.

Lemma py_min_Rmin (a b : R) : py_min a b = Rmin a b.
Proof. unfold py_min, Rmin. destruct (Rlt_dec b a), (Rle_dec a b); lra. Qed.

Lemma py_span (a b : R) : py_max a b - py_min a b = Rabs (a - b).
Proof.
  unfold py_max, py_min, Rabs.
  destruct (Rlt_dec a b), (Rlt_dec b a), (Rcase_abs (a - b)); lra.
Qed.

Lemma clip_gt (x t : R) : 0 <= t < 1 -> (t < clip x 0 1 <-> t < x).
Proof.
  intro H. unfold clip, Rmin, Rmax.
  destruct (Rle_dec x 0); destruct (Rle_dec _ 1); lra.
Qed.

Lemma clip_lt (x t : R) : 0 < t <= 1 -> (clip x 0 1 < t <-> x < t).
Proof.
  intro H. unfold clip, Rmin, Rmax.
  destruct (Rle_dec x 0); destruct (Rle_dec _ 1); lra.
Qed.

Local Open Scope string_scope.

(** What [calculate_weight_transfer] computes once the four keypoints are
    there. *)
Lemma weight_transfer_present (k : list point) (l_hip r_hip l_ankle r_ankle : point) :
  nth_error k 11 = Some l_hip ->
  nth_error k 12 = Some r_hip ->
  nth_error k 15 = Some l_ankle ->
  nth_error k 16 = Some r_ankle ->
  let span := Rabs (fst l_ankle - fst r_ankle) in
  let ratio :=
    (((fst l_hip + fst r_hip) / 2 - Rmin (fst l_ankle) (fst r_ankle)) / span)%R in
  calculate_weight_transfer k =
    if Rltb span 10 then "Balanced"
    else if Rltb 0.6 (clip ratio 0 1) then
      str_of_int (trunc (clip ratio 0 1 * 100)) ++ "% Front"
    else if Rltb (clip ratio 0 1) 0.4 then
      str_of_int (trunc ((1 - clip ratio 0 1) * 100)) ++ "% Back"
    else "Balanced".
Proof.
  intros H11 H12 H15 H16 span ratio.
  unfold calculate_weight_transfer, weight_transfer_body, kpt.
  rewrite H11, H12, H15, H16. cbn [bind].
  rewrite py_span, py_min_Rmin. fold span. fold ratio.
  destruct (Rltb span 10); [ reflexivity | ].
  destruct (Rltb 0.6 (clip ratio 0 1)); [ reflexivity | ].
  destruct (Rltb (clip ratio 0 1) 0.4); reflexivity.
Qed.

End PoseSpec.

(** ** Weight transfer and the clamped cosine in floating point *)

(** In the arithmetic of the real numbers the float code is the
    [calculate_weight_transfer] of [PoseEngine]. *)
Lemma weight_transfer_real_reading (k : list (R * R)) :
  @PoseEngineF.calculate_weight_transfer R real_ops k
  = PoseEngine.calculate_weight_transfer k.
Proof.
  assert (Hmin : forall a b : R, @PoseEngineF.py_min R real_ops a b = py_min a b).
  { intros a b. unfold PoseEngineF.py_min, py_min. cbn [f_lt real_ops].
    unfold Rltb. destruct (Rlt_dec b a); reflexivity. }
  assert (Hmax : forall a b : R, @PoseEngineF.py_max R real_ops a b = py_max a b).
  { intros a b. unfold PoseEngineF.py_max, py_max. cbn [f_lt real_ops].
    unfold Rltb. destruct (Rlt_dec a b); reflexivity. }
  assert (H6 : @f_lit R real_ops 6 1 = 0.6%R) by (cbn; lra).
  assert (H4 : @f_lit R real_ops 4 1 = 0.4%R) by (cbn; lra).
  unfold PoseEngineF.calculate_weight_transfer, PoseEngine.calculate_weight_transfer,
    PoseEngineF.weight_transfer_body, PoseEngine.weight_transfer_body,
    PoseEngineF.kpt, PoseEngine.kpt, PoseEngineF.point, PoseEngine.point.
  destruct (nth_error k 11) as [l_hip|]; [ | reflexivity ].
  destruct (nth_error k 12) as [r_hip|]; [ | reflexivity ].
  destruct (nth_error k 15) as [l_ankle|]; [ | reflexivity ].
  destruct (nth_error k 16) as [r_ankle|]; [ | reflexivity ].
  cbn [bind]. rewrite Hmin, Hmax, H6, H4.
  cbn [f_lt f_abs f_sub f_add f_div f_mul f_of_int f_clip f_int real_ops].
  unfold PoseEngine.clip.
  destruct (Rltb _ 10); [ reflexivity | ].
  destruct (Rltb 0.6 _); [ reflexivity | ].
  destruct (Rltb _ 0.4); reflexivity.
Qed.

Module FloatPoseSpec.

Import PoseEngineF.

Local Open Scope string_scope.

Section Facts.

Context {F : Type} {ops : Floating F}.

Local Open Scope fl_scope.

(** What [calculate_weight_transfer] computes once the four keypoints are
    there. *)
Lemma weight_transfer_body_present (k : list point)
  (l_hip r_hip l_ankle r_ankle : point) :
  nth_error k 11 = Some l_hip ->
  nth_error k 12 = Some r_hip ->
  nth_error k 15 = Some l_ankle ->
  nth_error k 16 = Some r_ankle ->
  let span := ankle_span l_ankle r_ankle in
  let ratio := hip_ratio l_hip r_hip l_ankle r_ankle in
  weight_transfer_body k =
    if span <? f_of_int 10 then Return "Balanced"
    else if f_lit 6 1 <? ratio then
      pct <- f_int (ratio * f_of_int 100) ;;
      Return (str_of_int pct ++ "% Front")
    else if ratio <? f_lit 4 1 then
      pct <- f_int ((f_of_int 1 - ratio) * f_of_int 100) ;;
      Return (str_of_int pct ++ "% Back")
    else Return "Balanced".
Proof.
  intros H11 H12 H15 H16. unfold weight_transfer_body, kpt.
  rewrite H11, H12, H15, H16. reflexivity.
Qed.

End Facts.

(** In the arithmetic of the real numbers the result is ["Neutral"],
    ["Balanced"] or a percentage from 0 to 100. *)
Lemma weight_transfer_real_range (k : list (R * R)) :
  let out := @calculate_weight_transfer R real_ops k in
  out = "Neutral" \/ out = "Balanced" \/
  exists pct : Z,
    (0 <= pct <= 100)%Z /\
    (out = str_of_int pct ++ "% Front" \/ out = str_of_int pct ++ "% Back").
Proof.
  cbv zeta. unfold calculate_weight_transfer.
  assert (Habsent : forall i : nat,
             In i [11; 12; 15; 16]%nat -> nth_error k i = None ->
             exists e, @weight_transfer_body R real_ops k = Raise e).
  { intros i Hi Hnone. unfold weight_transfer_body, kpt, point.
    destruct (nth_error k 11) eqn:H11; [ | eexists; reflexivity ].
    destruct (nth_error k 12) eqn:H12; [ | eexists; reflexivity ].
    destruct (nth_error k 15) eqn:H15; [ | eexists; reflexivity ].
    destruct (nth_error k 16) eqn:H16; [ | eexists; reflexivity ].
    cbn [In] in Hi. destruct Hi as [<-|[<-|[<-|[<-|[]]]]]; congruence. }
  destruct (nth_error k 11) as [l_hip|] eqn:H11;
    [ | destruct (Habsent 11%nat) as [e ->]; cbn; auto ].
  destruct (nth_error k 12) as [r_hip|] eqn:H12;
    [ | destruct (Habsent 12%nat) as [e ->]; cbn; auto ].
  destruct (nth_error k 15) as [l_ankle|] eqn:H15;
    [ | destruct (Habsent 15%nat) as [e ->]; cbn; auto ].
  destruct (nth_error k 16) as [r_ankle|] eqn:H16;
    [ | destruct (Habsent 16%nat) as [e ->]; cbn; auto 6 ].
  clear Habsent.
  rewrite (@weight_transfer_body_present R real_ops k _ _ _ _ H11 H12 H15 H16).
  cbv zeta. set (ratio := hip_ratio l_hip r_hip l_ankle r_ankle).
  assert (Hclip : (0 <= ratio <= 1)%R).
  { unfold ratio, hip_ratio. cbn [f_clip real_ops f_of_int].
    match goal with
    | |- (_ <= Rmin (Rmax ?x 0) 1 <= _)%R =>
        exact (@PoseSpec.clip_bounds x 0 1 ltac:(lra))
    end. }
  destruct (f_lt _ (f_of_int 10)); [ right; left; reflexivity | ].
  destruct (f_lt (f_lit 6 1) ratio).
  - right; right. cbn [f_int real_ops f_mul f_of_int bind].
    exists (trunc (ratio * 100)). split; [ | left; reflexivity ].
    apply PoseSpec.trunc_bounds; [ lia | lra ].
  - destruct (f_lt ratio (f_lit 4 1)); [ | right; left; reflexivity ].
    right; right. cbn [f_int real_ops f_mul f_sub f_of_int bind].
    exists (trunc ((1 - ratio) * 100)). split; [ | right; reflexivity ].
    apply PoseSpec.trunc_bounds; [ lia | lra ].
Qed.

(** C7: in whatever floating-point arithmetic the keypoints live, with
    both hips and both ankles present, the result is ["Balanced"] when the
    horizontal distance between the ankles is below 10.  Otherwise, with
    the ratio of the hip centre's offset from the lower ankle coordinate
    to the ankle span, clamped to [0, 1]: ["Balanced"] when the ratio is
    neither above 0.6 nor below 0.4; when it is above 0.6, the integer
    part of a hundred times the ratio, followed by ["% Front"]; when it is
    below 0.4, the integer part of a hundred times the complement of the
    ratio, followed by ["% Back"].  Every operation and comparison is the
    one of that arithmetic.  In the arithmetic of the real numbers, the
    percentage reported lies between 0 and 100. *)
Theorem weight_transfer_cases (F : Type) (ops : Floating F) (k : list point)
  (l_hip r_hip l_ankle r_ankle : point) :
  nth_error k 11 = Some l_hip ->
  nth_error k 12 = Some r_hip ->
  nth_error k 15 = Some l_ankle ->
  nth_error k 16 = Some r_ankle ->
  let span := ankle_span l_ankle r_ankle in
  let ratio := hip_ratio l_hip r_hip l_ankle r_ankle in
  let out := calculate_weight_transfer k in
  (f_lt span (f_of_int 10) = true -> out = "Balanced") /\
  (f_lt span (f_of_int 10) = false ->
   f_lt (f_lit 6 1) ratio = false ->
   f_lt ratio (f_lit 4 1) = false ->
   out = "Balanced") /\
  (f_lt span (f_of_int 10) = false ->
   f_lt (f_lit 6 1) ratio = true ->
   forall pct : Z,
     f_int (f_mul ratio (f_of_int 100)) = Return pct ->
     out = str_of_int pct ++ "% Front") /\
  (f_lt span (f_of_int 10) = false ->
   f_lt (f_lit 6 1) ratio = false ->
   f_lt ratio (f_lit 4 1) = true ->
   forall pct : Z,
     f_int (f_mul (f_sub (f_of_int 1) ratio) (f_of_int 100)) = Return pct ->
     out = str_of_int pct ++ "% Back") /\
  (forall kr : list (R * R),
     let out_r := @calculate_weight_transfer R real_ops kr in
     out_r = "Neutral" \/ out_r = "Balanced" \/
     exists pct : Z,
       (0 <= pct <= 100)%Z /\
       (out_r = str_of_int pct ++ "% Front" \/
        out_r = str_of_int pct ++ "% Back")).
Proof.
  intros H11 H12 H15 H16 span ratio out.
  pose proof (weight_transfer_body_present k H11 H12 H15 H16) as Heq.
  cbv zeta in Heq. fold span in Heq. fold ratio in Heq.
  unfold out, calculate_weight_transfer. rewrite Heq.
  repeat split.
  - intros ->. reflexivity.
  - intros -> -> ->. reflexivity.
  - intros -> -> pct ->. reflexivity.
  - intros -> -> -> pct ->. reflexivity.
  - exact weight_transfer_real_range.
Qed.

Section Binary64Facts.

Import PrimFloat.
Local Open Scope float_scope.
Local Set Warnings "-inexact-float".

Let ops64 : Floating float := Binary64.ops Binary64.no_library.

Lemma weight_transfer_cases_witness :
  @calculate_weight_transfer float ops64 (@standing float ops64 70 80)
  = "75% Front"%string.
Proof.
  refine (proj1 (proj2 (proj2
            (@weight_transfer_cases float ops64 (@standing float ops64 70 80)
               (70, 50) (80, 50) (0, 100) (100, 100)
               eq_refl eq_refl eq_refl eq_refl))) _ _ 75%Z _);
    vm_compute; reflexivity.
Defined.

(** The percentage is cut, not rounded, and it is cut after the
    arithmetic has rounded: with the hips at 34 of 100 the complement
    times a hundred is the double next below 66, and 65 is reported; at
    60 and at 40 of 100 the subject is balanced. *)
Lemma weight_transfer_binary64 :
  @calculate_weight_transfer float ops64 (@standing float ops64 34 34)
    = "65% Back"%string /\
  (1 - 0.34) * 100 = 65.999999999999986 /\
  @calculate_weight_transfer float ops64 (@standing float ops64 33 33)
    = "67% Back"%string /\
  @calculate_weight_transfer float ops64 (@standing float ops64 60 60)
    = "Balanced"%string /\
  @calculate_weight_transfer float ops64 (@standing float ops64 40 40)
    = "Balanced"%string /\
  @calculate_weight_transfer float ops64 (@standing float ops64 100 100)
    = "100% Front"%string.
Proof. vm_compute. repeat split. Qed.

(** The clamp of [calculate_angle] at work.  With both end points at
    (2, 3) and the vertex at the origin the quotient is the double next
    above 1, outside the domain of the inverse cosine, and the clamp
    brings it back to 1.  With the end points at (1, 1) and (-1, -1) it is
    the double next above -1 and the clamp leaves it.  With an end point
    on the vertex it is 0/0, not a number, and stays so. *)
Lemma clamped_cosine_binary64 :
  @cosine float ops64 (2, 3) (0, 0) (2, 3) = 1.0000000000000002 /\
  @clamped_cosine float ops64 (2, 3) (0, 0) (2, 3) = 1 /\
  @cosine float ops64 (1, 1) (0, 0) (-1, -1) = -0.99999999999999978 /\
  @clamped_cosine float ops64 (1, 1) (0, 0) (-1, -1) = -0.99999999999999978 /\
  is_nan (@cosine float ops64 (0, 0) (0, 0) (1, 0)) = true /\
  is_nan (@clamped_cosine float ops64 (0, 0) (0, 0) (1, 0)) = true.
Proof. vm_compute. repeat split. Qed.

(** In binary64, whatever [np.arccos] and [np.degrees] return on
    numbers, [calculate_angle] raises [ValueError] when an end point lies
    on the vertex. *)
Lemma calculate_angle_binary64 (lib : Binary64.library) :
  @calculate_angle float (Binary64.ops lib) (0, 0) (0, 0) (1, 0)
    = Raise ValueError /\
  @calculate_angle float (Binary64.ops lib) (1, 0) (0, 0) (0, 0)
    = Raise ValueError /\
  @calculate_angle float (Binary64.ops lib) (5, 7) (5, 7) (5, 7)
    = Raise ValueError.
Proof. vm_compute. repeat split. Qed.

End Binary64Facts.

End FloatPoseSpec.

(** ** Pose engine and segmenter together *)

Module PipelineSpec.

Section Facts.

Variables image gray_image : Type.
Variable cvtColor : image -> gray_image.
Variable draw_ids : image -> list PoseEngine.detection -> option Z -> image.

Let process := PoseEngine.process cvtColor draw_ids.

(** When the target is lost, [process] returns the dictionary it started
    from, in which the elbow angle is 0. *)
Lemma process_lost_target (self : PoseEngine.engine) (frame : image)
  (results : option (list PoseEngine.detection)) :
  PoseEngine.target_lost self results ->
  exists annotated : image,
    process self frame results
    = PoseEngine.fallback self annotated (cvtColor frame).
Proof.
  unfold PoseEngine.target_lost, process, PoseEngine.process.
  destruct results as [[|d dets]|]; intro H; try (eexists; reflexivity).
  destruct (PoseEngine.select_target _ _) as [[i t]|];
    [ | eexists; reflexivity ].
  destruct H as [e He]. rewrite He. eexists; reflexivity.
Qed.

(** C9: the elbow angle that [process] reports when the target is lost
    is 0; [detect_phase] puts 0 in the follow-through; after [update] on
    a frame with an elbow angle of at most 90 no shot is active, and a
    shot that was in progress has been reported as ended, with its
    buffered frames handed out and the buffer emptied.  So one frame
    with the target lost ends the shot in progress. *)
Theorem lost_target_frame_ends_shot :
  (forall (self : PoseEngine.engine) (frame : image)
          (results : option (list PoseEngine.detection)),
      PoseEngine.target_lost self results ->
      pose_elbow (process self frame results) = Some 0%Z) /\
  ShotSegmenter.detect_phase 0 = ShotSegmenter.FollowThrough /\
  (forall (s : ShotSegmenter.state image) (pd : pose_data image gray_image)
          (fid : Z),
      (ShotSegmenter.elbow_of pd <= 90)%Z ->
      let s' := fst (ShotSegmenter.update s pd fid) in
      let r := snd (ShotSegmenter.update s pd fid) in
      ShotSegmenter.res_phase r = ShotSegmenter.FollowThrough /\
      ShotSegmenter.current_shot s' = None /\
      (ShotSegmenter.current_shot s <> None ->
         ShotSegmenter.ended r = true /\
         ShotSegmenter.frames r =
           Some (deque_append (ShotSegmenter.buffer_size s)
                   (ShotSegmenter.frame_buffer s) (pose_annotated pd)) /\
         ShotSegmenter.frame_buffer s' = [])) /\
  (forall (self : PoseEngine.engine) (frame : image)
          (results : option (list PoseEngine.detection))
          (s : ShotSegmenter.state image) (fid : Z),
      PoseEngine.target_lost self results ->
      let pd := process self frame results in
      ShotSegmenter.current_shot (fst (ShotSegmenter.update s pd fid)) = None /\
      (ShotSegmenter.current_shot s <> None ->
         ShotSegmenter.ended (snd (ShotSegmenter.update s pd fid)) = true /\
         ShotSegmenter.frame_buffer (fst (ShotSegmenter.update s pd fid)) = [])).
Proof.
  assert (Hzero : forall self frame results,
             PoseEngine.target_lost self results ->
             pose_elbow (process self frame results) = Some 0%Z).
  { intros self frame results H.
    destruct (@process_lost_target self frame results H) as [annotated ->].
    reflexivity. }
  split; [ exact Hzero | ].
  split; [ reflexivity | ].
  split.
  - intros s pd fid Hle. cbv zeta.
    exact (@SegmenterSpec.update_follow_through _ _ s pd fid Hle).
  - intros self frame results s fid Hlost. cbv zeta.
    assert (Hle : (ShotSegmenter.elbow_of (process self frame results) <= 90)%Z).
    { unfold ShotSegmenter.elbow_of. rewrite (Hzero _ _ _ Hlost). simpl. lia. }
    destruct (@SegmenterSpec.update_follow_through _ _ s _ fid Hle)
      as (_ & Hnone & Hact).
    split; [ exact Hnone | ].
    intro Hcur. destruct (Hact Hcur) as (He & _ & Hb). split; assumption.
Qed.

End Facts.

End PipelineSpec.

(** * Further properties of the components *)

Unset Implicit Arguments.

(** ** The frame buffer *)

Lemma deque_append_length {A : Type} (n : nat) (d : list A) (x : A) :
  List.length (deque_append n d x) = Nat.min (List.length d + 1) n.
Proof.
  unfold deque_append. rewrite length_skipn, length_app. simpl. lia.
Qed.

Lemma deque_append_nonempty {A : Type} (n : nat) (d : list A) (x : A) :
  (0 < n)%nat -> deque_append n d x <> [].
Proof.
  intros Hn Heq. apply (f_equal (@List.length A)) in Heq.
  rewrite deque_append_length in Heq. simpl in Heq. lia.
Qed.

(** Appending to the last [n] elements of a list and keeping the last [n]
    again gives the last [n] elements of the longer list. *)
Lemma deque_append_suffix {A : Type} (n : nat) (l : list A) (x : A) :
  deque_append n (skipn (List.length l - n) l) x = deque_append n l x.
Proof.
  unfold deque_append.
  rewrite !skipn_app, !length_app, !length_skipn, skipn_skipn. simpl.
  destruct (Nat.le_gt_cases (List.length l) n) as [Hle|Hgt].
  - replace (List.length l - n)%nat with 0%nat by lia.
    rewrite !Nat.sub_0_r, Nat.add_0_r. reflexivity.
  - f_equal; f_equal; lia.
Qed.

(** The newest element is the last one kept. *)
Lemma deque_append_last {A : Type} (n : nat) (d : list A) (x d0 : A) :
  (0 < n)%nat -> last (deque_append n d x) d0 = x.
Proof.
  intro Hn. unfold deque_append.
  rewrite skipn_app, length_app. simpl.
  replace (List.length d + 1 - n - List.length d)%nat with 0%nat by lia.
  simpl. apply last_last.
Qed.

(** ** Shot segmenter: invariant, ids and clips *)

Module SegmenterMore.

Import ShotSegmenter.

Section Facts.

Variables image gray_image : Type.

Let state := state image.
Let pose := pose_data image gray_image.
Let result := result image.

(** One call, in the four cases of the state machine. *)
Inductive step_case (s : state) (pd : pose) (fid : Z) : Prop :=
| case_idle :
    current_shot s = None ->
    detect_phase (elbow_of pd) <> Backlift ->
    update s pd fid =
      (s, {| res_id := shot_id s; res_phase := detect_phase (elbow_of pd);
             started := false; ended := false; frames := None |}) ->
    step_case s pd fid
| case_start :
    current_shot s = None ->
    update s pd fid =
      ({| current_shot := Some {| shot_ident := shot_id s + 1; start_frame := fid |};
          shot_id := shot_id s + 1;
          frame_buffer := deque_append (buffer_size s) [] (pose_annotated pd);
          buffer_size := buffer_size s |},
       {| res_id := (shot_id s + 1)%Z; res_phase := Backlift;
          started := true; ended := false; frames := None |}) ->
    step_case s pd fid
| case_active (sh : shot) :
    current_shot s = Some sh ->
    update s pd fid =
      ({| current_shot := Some sh; shot_id := shot_id s;
          frame_buffer := deque_append (buffer_size s) (frame_buffer s)
                            (pose_annotated pd);
          buffer_size := buffer_size s |},
       {| res_id := shot_ident sh; res_phase := detect_phase (elbow_of pd);
          started := false; ended := false; frames := None |}) ->
    step_case s pd fid
| case_end (sh : shot) :
    current_shot s = Some sh ->
    update s pd fid =
      ({| current_shot := None; shot_id := shot_id s; frame_buffer := [];
          buffer_size := buffer_size s |},
       {| res_id := shot_ident sh; res_phase := FollowThrough;
          started := false; ended := true;
          frames := Some (deque_append (buffer_size s) (frame_buffer s)
                            (pose_annotated pd)) |}) ->
    step_case s pd fid.

Lemma update_cases (s : state) (pd : pose) (fid : Z) : step_case s pd fid.
Proof.
  destruct (current_shot s) as [sh|] eqn:Hcur.
  - destruct (detect_phase (elbow_of pd)) eqn:Hph.
    + apply (case_active s pd fid sh Hcur).
      rewrite (@SegmenterSpec.update_active _ _ s pd fid sh Hcur) by congruence.
      rewrite Hph. reflexivity.
    + apply (case_active s pd fid sh Hcur).
      rewrite (@SegmenterSpec.update_active _ _ s pd fid sh Hcur) by congruence.
      rewrite Hph. reflexivity.
    + apply (case_active s pd fid sh Hcur).
      rewrite (@SegmenterSpec.update_active _ _ s pd fid sh Hcur) by congruence.
      rewrite Hph. reflexivity.
    + apply (case_end s pd fid sh Hcur).
      exact (@SegmenterSpec.update_end _ _ s pd fid sh Hcur Hph).
  - destruct (detect_phase (elbow_of pd)) eqn:Hph.
    + apply (case_start s pd fid Hcur).
      exact (@SegmenterSpec.update_start _ _ s pd fid Hcur Hph).
    + apply (case_idle s pd fid Hcur); [ congruence | ].
      rewrite (@SegmenterSpec.update_idle _ _ s pd fid Hcur) by congruence.
      rewrite Hph. reflexivity.
    + apply (case_idle s pd fid Hcur); [ congruence | ].
      rewrite (@SegmenterSpec.update_idle _ _ s pd fid Hcur) by congruence.
      rewrite Hph. reflexivity.
    + apply (case_idle s pd fid Hcur); [ congruence | ].
      rewrite (@SegmenterSpec.update_idle _ _ s pd fid Hcur) by congruence.
      rewrite Hph. reflexivity.
Qed.

Lemma inv_init (size : nat) : segmenter_inv (init image size).
Proof. unfold segmenter_inv; simpl. repeat split; lia. Qed.

Lemma inv_update (s : state) (pd : pose) (fid : Z) :
  segmenter_inv s -> segmenter_inv (fst (update s pd fid)).
Proof.
  intros (Hid & Hlen & Hshot).
  destruct (update_cases s pd fid) as [Hcur _ Heq|Hcur Heq|sh Hcur Heq|sh Hcur Heq];
    rewrite Heq; unfold segmenter_inv; cbn [fst current_shot shot_id frame_buffer
      buffer_size shot_ident]; rewrite ?Hcur in *.
  - auto.
  - repeat split; try lia.
    + rewrite deque_append_length. lia.
    + intro Hpos. apply deque_append_nonempty; exact Hpos.
  - destruct Hshot as [Hident _]. repeat split; try lia; try assumption.
    + rewrite deque_append_length. lia.
    + intro Hpos. apply deque_append_nonempty; exact Hpos.
  - repeat split; try assumption. simpl. lia.
Qed.

Lemma inv_run (inputs : list pose) :
  forall (s : state) (fid : Z),
    segmenter_inv s -> segmenter_inv (fst (run s fid inputs)).
Proof.
  induction inputs as [|pd rest IH]; intros s fid Hinv; [ exact Hinv | ].
  cbn [run]. pose proof (inv_update s pd fid Hinv) as H1.
  destruct (update s pd fid) as [s1 r]. cbn [fst] in H1.
  specialize (IH s1 (fid + 1)%Z H1).
  destruct (run s1 (fid + 1)%Z rest) as [s2 rs]. exact IH.
Qed.

(** X1: after any sequence of calls on a segmenter of any capacity, the
    buffer holds at most [buffer_size] frames, it is empty whenever no
    shot is active, an active shot carries the current value of the shot
    counter and has at least one frame buffered, and the counter is not
    negative. *)
Theorem segmenter_invariant (size : nat) (fid : Z) (inputs : list pose) :
  segmenter_inv (fst (run (init image size) fid inputs)).
Proof. apply inv_run, inv_init. Qed.

Lemma count_flag_cons (flag : result -> bool) (r : result) (rs : list result) :
  count_flag flag (r :: rs) = (flag_value (flag r) + count_flag flag rs)%Z.
Proof.
  unfold count_flag, flag_value. cbn [filter].
  destruct (flag r); cbn [List.length]; lia.
Qed.

(** How one call moves the counter, the reported id and the two flags. *)
Lemma update_accounting (s : state) (pd : pose) (fid : Z) :
  segmenter_inv s ->
  let s1 := fst (update s pd fid) in
  let r := snd (update s pd fid) in
  res_id r = shot_id s1 /\
  shot_id s1 = (shot_id s + flag_value (started r))%Z /\
  active_value s1 = (active_value s + flag_value (started r)
                     - flag_value (ended r))%Z /\
  started r && ended r = false.
Proof.
  intros (Hid & Hlen & Hshot). cbv zeta. unfold active_value.
  destruct (update_cases s pd fid) as [Hcur _ Heq|Hcur Heq|sh Hcur Heq|sh Hcur Heq];
    rewrite Heq; cbn [fst snd current_shot shot_id res_id started ended flag_value];
    rewrite Hcur in *.
  - repeat split; try reflexivity; lia.
  - repeat split; try reflexivity; lia.
  - destruct Hshot as [Hident _]. repeat split; try reflexivity; lia.
  - destruct Hshot as [Hident _]. repeat split; try reflexivity; lia.
Qed.

Lemma run_cons (s : state) (fid : Z) (pd : pose) (rest : list pose) :
  run s fid (pd :: rest) =
    (fst (run (fst (update s pd fid)) (fid + 1) rest),
     snd (update s pd fid) :: snd (run (fst (update s pd fid)) (fid + 1) rest)).
Proof.
  cbn [run]. destruct (update s pd fid) as [s1 r]. cbn [fst snd].
  destruct (run s1 (fid + 1)%Z rest) as [s2 rs]. reflexivity.
Qed.

Lemma run_ids (inputs : list pose) :
  forall (s : state) (fid : Z) (k : nat) (r : result),
    segmenter_inv s ->
    nth_error (snd (run s fid inputs)) k = Some r ->
    res_id r =
      (shot_id s
       + count_flag (@started image) (firstn (S k) (snd (run s fid inputs))))%Z.
Proof.
  induction inputs as [|pd rest IH]; intros s fid k r Hinv Hnth.
  - destruct k; discriminate.
  - rewrite run_cons in *. cbn [snd] in *.
    destruct (update_accounting s pd fid Hinv) as (Hres & Hcount & _).
    cbv zeta in Hres, Hcount.
    rewrite firstn_cons, count_flag_cons.
    destruct k as [|k].
    + cbn [nth_error] in Hnth. injection Hnth as <-.
      rewrite firstn_O. unfold count_flag at 1. simpl. lia.
    + cbn [nth_error] in Hnth.
      rewrite (IH _ _ k r (inv_update s pd fid Hinv) Hnth). lia.
Qed.

(** X2: on a segmenter run from its initial state, the shot id returned
    with any frame is the number of frames so far, that one included, whose
    result has [started] set: ids count the shots started, and the id goes
    on being reported after its shot has ended. *)
Theorem reported_id_counts_started_shots (size : nat) (fid : Z)
  (inputs : list pose) (k : nat) (r : result) :
  nth_error (snd (run (init image size) fid inputs)) k = Some r ->
  res_id r =
    count_flag (@started image) (firstn (S k) (snd (run (init image size) fid inputs))).
Proof.
  intro Hnth.
  rewrite (run_ids inputs _ fid k r (inv_init size) Hnth). reflexivity.
Qed.

Lemma run_balance (inputs : list pose) :
  forall (s : state) (fid : Z),
    segmenter_inv s ->
    let rs := snd (run s fid inputs) in
    (active_value (fst (run s fid inputs))
     = active_value s + count_flag (@started image) rs - count_flag (@ended image) rs)%Z /\
    (shot_id (fst (run s fid inputs)) = shot_id s + count_flag (@started image) rs)%Z /\
    Forall (fun r => started r && ended r = false) rs.
Proof.
  induction inputs as [|pd rest IH]; intros s fid Hinv; cbv zeta.
  - cbn [run fst snd]. unfold count_flag; simpl. repeat split; try lia.
    constructor.
  - rewrite run_cons. cbn [fst snd].
    destruct (update_accounting s pd fid Hinv) as (_ & Hcount & Hact & Hboth).
    cbv zeta in Hcount, Hact, Hboth.
    destruct (IH _ (fid + 1)%Z (inv_update s pd fid Hinv)) as (IHa & IHc & IHf).
    cbv zeta in IHa, IHc, IHf.
    rewrite !count_flag_cons. repeat split; try lia.
    constructor; assumption.
Qed.

(** X3: on a segmenter run from its initial state, no result has both
    [started] and [ended] set, the shot counter equals the number of
    results with [started] set, and the results with [started] set
    outnumber those with [ended] set by one while a shot is active and
    by none otherwise: every shot that ends was started, and a shot is
    started only after the one before it has ended. *)
Theorem shots_start_and_end_in_turn (size : nat) (fid : Z) (inputs : list pose) :
  let s' := fst (run (init image size) fid inputs) in
  let rs := snd (run (init image size) fid inputs) in
  Forall (fun r => started r && ended r = false) rs /\
  shot_id s' = count_flag (@started image) rs /\
  (count_flag (@started image) rs - count_flag (@ended image) rs)%Z =
    match current_shot s' with Some _ => 1%Z | None => 0%Z end.
Proof.
  destruct (run_balance inputs (init image size) fid (inv_init size))
    as (Ha & Hc & Hf).
  cbv zeta in *. unfold active_value in Ha. cbn [current_shot shot_id init] in *.
  repeat split; try assumption; lia.
Qed.

Lemma deque_append_keep_last (n : nat) (l : list image) (x : image) :
  deque_append n (keep_last n l) x = keep_last n (l ++ [x]).
Proof. unfold keep_last at 1. rewrite deque_append_suffix. reflexivity. Qed.

Lemma run_app (l1 : list pose) :
  forall (s : state) (fid : Z) (l2 : list pose),
    run s fid (l1 ++ l2) =
      (fst (run (fst (run s fid l1)) (fid + Z.of_nat (List.length l1)) l2),
       snd (run s fid l1)
         ++ snd (run (fst (run s fid l1)) (fid + Z.of_nat (List.length l1)) l2)).
Proof.
  induction l1 as [|pd rest IH]; intros s fid l2.
  - cbn [app run fst snd List.length]. rewrite Z.add_0_r.
    destruct (run s fid l2); reflexivity.
  - rewrite <- app_comm_cons, !run_cons, IH. cbn [fst snd List.length].
    replace (fid + 1 + Z.of_nat (List.length rest))%Z
      with (fid + Z.of_nat (S (List.length rest)))%Z by lia.
    reflexivity.
Qed.

(** While the elbow stays above 90 an active shot goes on: every frame is
    buffered and none is handed out. *)
Lemma run_active (mids : list pose) :
  forall (s : state) (fid : Z) (sh : shot) (seen : list image),
    current_shot s = Some sh ->
    frame_buffer s = keep_last (buffer_size s) seen ->
    Forall (fun m => (elbow_of m > 90)%Z) mids ->
    let s' := fst (run s fid mids) in
    current_shot s' = Some sh /\
    shot_id s' = shot_id s /\
    buffer_size s' = buffer_size s /\
    frame_buffer s' =
      keep_last (buffer_size s) (seen ++ map (@pose_annotated _ _) mids) /\
    List.length (snd (run s fid mids)) = List.length mids /\
    Forall (fun r => frames r = None /\ ended r = false /\ started r = false)
      (snd (run s fid mids)).
Proof.
  induction mids as [|m rest IH]; intros s fid sh seen Hcur Hbuf Hall; cbv zeta.
  - cbn [run fst snd map]. rewrite app_nil_r. repeat split; auto.
  - inversion Hall as [|? ? Hm Hrest]; subst.
    rewrite run_cons. cbn [fst snd].
    assert (Hph : detect_phase (elbow_of m) <> FollowThrough)
      by (rewrite SegmenterSpec.detect_phase_follow; lia).
    rewrite (@SegmenterSpec.update_active image gray_image s m fid sh Hcur Hph).
    cbn [fst snd].
    match goal with
    | |- context [run ?s1 _ rest] =>
        destruct (IH s1 (fid + 1)%Z sh (seen ++ [pose_annotated m]))
          as (H1 & H2 & H3 & H4 & H5 & H6)
    end.
    + reflexivity.
    + cbn [frame_buffer buffer_size]. rewrite Hbuf.
      apply deque_append_keep_last.
    + exact Hrest.
    + cbv zeta in *. cbn [shot_id buffer_size] in *.
      rewrite <- app_assoc in H4. cbn [map List.length].
      repeat split; auto.
Qed.

(** X4: when no shot is active, a backlift frame (elbow above 150)
    followed by any frames with the elbow above 90 and then a frame with
    the elbow at most 90 makes one shot: the first result has [started]
    set, the results in between carry no frames, and the last result has
    [ended] set, the new shot id, and as frames the annotated images of
    all those frames in order, first and last included, cut to the last
    [buffer_size] of them. *)
Theorem shot_clip_is_backlift_to_follow_through (s : state) (fid : Z)
  (back fin : pose) (mids : list pose) :
  current_shot s = None ->
  (elbow_of back > 150)%Z ->
  Forall (fun m => (elbow_of m > 90)%Z) mids ->
  (elbow_of fin <= 90)%Z ->
  exists between : list result,
    snd (run s fid (back :: mids ++ [fin])) =
      ({| res_id := shot_id s + 1; res_phase := Backlift;
          started := true; ended := false; frames := None |}
       :: between
       ++ [ {| res_id := shot_id s + 1; res_phase := FollowThrough;
               started := false; ended := true;
               frames :=
                 Some (keep_last (buffer_size s)
                         (map (@pose_annotated _ _) (back :: mids ++ [fin]))) |} ])
    /\ List.length between = List.length mids
    /\ Forall (fun r => frames r = None /\ ended r = false /\ started r = false)
         between
    /\ current_shot (fst (run s fid (back :: mids ++ [fin]))) = None.
Proof.
  intros Hcur Hback Hmids Hfin.
  assert (Hb : detect_phase (elbow_of back) = Backlift)
    by (apply SegmenterSpec.detect_phase_backlift; exact Hback).
  assert (Hf : detect_phase (elbow_of fin) = FollowThrough)
    by (apply SegmenterSpec.detect_phase_follow; exact Hfin).
  rewrite run_cons.
  rewrite (@SegmenterSpec.update_start image gray_image s back fid Hcur Hb).
  cbn [fst snd]. rewrite run_app.
  match goal with
  | |- context [run ?s1 (fid + 1)%Z mids] =>
      destruct (run_active mids s1 (fid + 1)%Z
                  {| shot_ident := shot_id s + 1; start_frame := fid |}
                  [pose_annotated back] eq_refl eq_refl Hmids)
        as (H1 & H2 & H3 & H4 & H5 & H6);
      set (sm := fst (run s1 (fid + 1)%Z mids)) in *;
      set (between := snd (run s1 (fid + 1)%Z mids)) in *
  end.
  cbn [shot_id buffer_size] in *.
  exists between. cbn [fst snd run].
  rewrite (@SegmenterSpec.update_end image gray_image sm fin _ _ H1 Hf).
  cbn [fst snd current_shot]. rewrite ?H2, ?H3, ?H4.
  rewrite deque_append_keep_last.
  repeat split; auto.
  cbn [map shot_ident]. rewrite map_app, <- app_assoc. reflexivity.
Qed.

End Facts.

Lemma reported_id_counts_started_shots_witness :
  exists r : result unit,
    nth_error (snd (run fresh 0 [elbow_frame 160; elbow_frame 80; elbow_frame 100]))
      2 = Some r /\
    res_id r =
      count_flag (@started unit)
        (firstn 3 (snd (run fresh 0
                          [elbow_frame 160; elbow_frame 80; elbow_frame 100]))).
Proof.
  eexists. split; [ reflexivity | ].
  apply (reported_id_counts_started_shots unit unit default_buffer_size 0
           [elbow_frame 160; elbow_frame 80; elbow_frame 100] 2).
  reflexivity.
Defined.

Lemma shot_clip_is_backlift_to_follow_through_witness :
  exists between : list (result unit),
    snd (run fresh 0 (elbow_frame 160 :: [elbow_frame 130; elbow_frame 100]
                        ++ [elbow_frame 80])) =
      ({| res_id := 1; res_phase := Backlift;
          started := true; ended := false; frames := None |}
       :: between
       ++ [ {| res_id := 1; res_phase := FollowThrough;
               started := false; ended := true;
               frames := Some [tt; tt; tt; tt] |} ]).
Proof.
  destruct (shot_clip_is_backlift_to_follow_through unit unit fresh 0
              (elbow_frame 160) (elbow_frame 80)
              [elbow_frame 130; elbow_frame 100])
    as (between & Heq & _).
  - reflexivity.
  - reflexivity.
  - repeat constructor.
  - discriminate.
  - exists between. exact Heq.
Defined.

End SegmenterMore.

(** ** Speed estimator: bounds and independence *)

Module SpeedMore.

Import SpeedEstimator.

Local Open Scope R_scope.

(** [rint] stays between any two integers that enclose its argument. *)
Lemma rint_bounds (x : R) (lo hi : Z) :
  IZR lo <= x <= IZR hi -> (lo <= rint x <= hi)%Z.
Proof.
  intros [Hlo Hhi]. unfold rint.
  destruct (base_Int_part x) as [Hle Hgt].
  assert (Hf1 : (lo <= Int_part x)%Z).
  { apply Z.lt_succ_r, lt_IZR. rewrite succ_IZR. lra. }
  assert (Hf2 : (Int_part x <= hi)%Z) by (apply le_IZR; lra).
  destruct (Rlt_dec (x - IZR (Int_part x)) (1 / 2)) as [_|Hd]; [ lia | ].
  assert (Hlt : (Int_part x < hi)%Z) by (apply lt_IZR; lra).
  destruct (Rlt_dec (1 / 2) (x - IZR (Int_part x))); [ lia | ].
  destruct (Z.even (Int_part x)); lia.
Qed.

(** [rint] is within a half of its argument. *)
Lemma rint_close (x : R) : - (1 / 2) <= IZR (rint x) - x <= 1 / 2.
Proof.
  unfold rint. destruct (base_Int_part x) as [Hle Hgt].
  destruct (Rlt_dec (x - IZR (Int_part x)) (1 / 2)) as [Hd|Hd]; [ lra | ].
  destruct (Rlt_dec (1 / 2) (x - IZR (Int_part x))) as [Hd2|Hd2].
  - rewrite plus_IZR. lra.
  - destruct (Z.even (Int_part x)); [ lra | rewrite plus_IZR; lra ].
Qed.

Lemma round2_bounds (x : R) (hi : Z) :
  0 <= x <= IZR hi -> 0 <= round2 x <= IZR hi.
Proof.
  intros [H0 Hhi]. unfold round2.
  destruct (rint_bounds (x * 100) 0 (hi * 100)) as [Hr0 Hr1].
  { rewrite mult_IZR. lra. }
  apply IZR_le in Hr0, Hr1. rewrite mult_IZR in Hr1. lra.
Qed.

Lemma px_norm_nonneg (p q : pixel) : 0 <= px_norm p q.
Proof. unfold px_norm. apply sqrt_pos. Qed.

Lemma raw_speed_nonneg (dist mpp fps0 : R) :
  0 <= dist -> 0 <= mpp -> 0 <= fps0 -> 0 <= dist * mpp * fps0 * 3.6.
Proof.
  intros Hd Hm Hf.
  assert (H1 : 0 <= dist * mpp) by nra.
  assert (H2 : 0 <= dist * mpp * fps0) by nra.
  nra.
Qed.

Lemma reported_bounds (e : R) : 0 <= e -> 0 <= reported e <= 160.
Proof.
  intro H. unfold reported. apply (round2_bounds _ 160).
  unfold py_min. destruct (Rlt_dec 160 e); lra.
Qed.

Lemma sum_nonneg (l : list R) :
  Forall (fun v => 0 <= v) l -> 0 <= fold_right Rplus 0 l.
Proof.
  induction 1 as [|v l Hv _ IH]; simpl; lra.
Qed.

Lemma mean_nonneg (l : list R) : Forall (fun v => 0 <= v) l -> 0 <= mean l.
Proof.
  intro H. unfold mean. destruct l as [|v l].
  - simpl. unfold Rdiv. rewrite Rmult_0_l. lra.
  - apply Rmult_le_pos; [ apply sum_nonneg; exact H | ].
    apply Rlt_le, Rinv_0_lt_compat, lt_0_INR. simpl. lia.
Qed.

Lemma deque_append_forall (P : R -> Prop) (n : nat) (d : list R) (x : R) :
  Forall P d -> P x -> Forall P (deque_append n d x).
Proof.
  intros Hd Hx. unfold deque_append.
  assert (Hall : Forall P (d ++ [x]))
    by (apply Forall_app; split; [ exact Hd | repeat constructor; exact Hx ]).
  rewrite <- (firstn_skipn (List.length (d ++ [x]) - n) (d ++ [x])) in Hall.
  apply Forall_app in Hall. exact (proj2 Hall).
Qed.

Section Facts.

Variables image gray_image contour : Type.
Variable motion_contours : gray_image -> gray_image -> list contour.
Variable contourArea : contour -> R.
Variable boundingRect : contour -> Z * Z * Z * Z.

Let state := state gray_image.
Let ball_speed := _ball_speed motion_contours contourArea boundingRect.
Let update := @update gray_image contour motion_contours contourArea
                boundingRect image.

Lemma wf_init (fps0 : R) : 0 <= fps0 -> estimator_wf (init gray_image fps0).
Proof.
  intro H. unfold estimator_wf; simpl.
  repeat split; try lra; try discriminate; try constructor. lia.
Qed.

Lemma bat_speed_wf (s : state) (w : option pixel) :
  estimator_wf s ->
  estimator_wf (fst (_bat_speed s w)) /\ 0 <= snd (_bat_speed s w) <= 160.
Proof.
  intros (Hfps & Hmpp & Ha & Hema & Hwin & Hlen).
  unfold _bat_speed.
  destruct w as [w|]; [ destruct (prev_wrist s) as [pw|] | ];
    cbn [fst snd]; unfold estimator_wf; simpl;
    try (repeat split; try assumption; lra).
  pose proof (px_norm_nonneg w pw) as Hn.
  assert (Hraw : 0 <= px_norm w pw * meters_per_pixel s * fps s * 3.6).
  { apply raw_speed_nonneg; assumption. }
  assert (He : 0 <= match bat_ema s with
                    | Some e => alpha s * (px_norm w pw * meters_per_pixel s
                                           * fps s * 3.6) + (1 - alpha s) * e
                    | None => px_norm w pw * meters_per_pixel s * fps s * 3.6
                    end).
  { destruct (bat_ema s) as [e|]; [ | exact Hraw ].
    specialize (Hema e eq_refl). nra. }
  split; [ | apply reported_bounds; exact He ].
  repeat split; try assumption; try lra.
  intros e' Heq. injection Heq as <-. exact He.
Qed.

Lemma ball_speed_wf (s : state) (g : gray_image) :
  estimator_wf s ->
  estimator_wf (fst (ball_speed s g)) /\ 0 <= snd (ball_speed s g) <= 160.
Proof.
  intros (Hfps & Hmpp & Ha & Hema & Hwin & Hlen).
  assert (Hsame : forall s1 : state,
            fps s1 = fps s -> meters_per_pixel s1 = meters_per_pixel s ->
            alpha s1 = alpha s -> bat_ema s1 = bat_ema s ->
            ball_speeds s1 = ball_speeds s -> estimator_wf s1).
  { intros s1 H1 H2 H3 H4 H5. unfold estimator_wf.
    rewrite H1, H2, H3, H4, H5. repeat split; try assumption; lra. }
  unfold ball_speed, _ball_speed.
  destruct (prev_gray s) as [pg|];
    [ | split; [ apply Hsame; reflexivity | cbn [snd]; lra ] ].
  destruct (motion_contours pg g) as [|c0 rest];
    [ split; [ apply Hsame; reflexivity | cbn [snd]; lra ] | ].
  cbv zeta.
  destruct (Rltb _ 5 || Rltb 300 _);
    [ split; [ apply Hsame; reflexivity | cbn [snd]; lra ] | ].
  destruct (boundingRect (max_by contourArea c0 rest)) as [[[x y] w] h].
  cbn [prev_ball_center set_prev_gray].
  destruct (prev_ball_center s) as [pc|];
    [ | split; [ apply Hsame; reflexivity | cbn [snd]; lra ] ].
  cbn [fst snd ball_speeds set_ball_speeds set_prev_ball_center set_prev_gray
       meters_per_pixel fps].
  set (speed := px_norm _ pc * meters_per_pixel s * fps s * 3.6).
  assert (Hspeed : 0 <= speed).
  { unfold speed. apply raw_speed_nonneg; try assumption.
    apply px_norm_nonneg. }
  assert (Hall : Forall (fun v => 0 <= v)
                   (deque_append ball_window (ball_speeds s) speed))
    by (apply deque_append_forall; assumption).
  split.
  - unfold estimator_wf; simpl. repeat split; try assumption; try lra.
    rewrite deque_append_length. lia.
  - apply reported_bounds, mean_nonneg; exact Hall.
Qed.

Lemma update_wf (s : state) (pd : pose_data image gray_image) :
  estimator_wf s ->
  estimator_wf (fst (update s pd)) /\ speeds_in_range (snd (update s pd)).
Proof.
  intro Hwf. unfold update, SpeedEstimator.update.
  destruct (bat_speed_wf s (pose_wrist pd) Hwf) as [Hwf1 Hbat].
  destruct (_bat_speed s (pose_wrist pd)) as [s1 bat]. cbn [fst snd] in *.
  destruct (ball_speed_wf s1 (pose_gray pd) Hwf1) as [Hwf2 Hball].
  unfold ball_speed in *.
  destruct (_ball_speed motion_contours contourArea boundingRect s1 (pose_gray pd))
    as [s2 ball]. cbn [fst snd] in *.
  split; [ exact Hwf2 | ].
  unfold speeds_in_range; cbn [speed_bat speed_ball speed_arm].
  split; [ exists bat; split; [ reflexivity | exact Hbat ] | ].
  split; [ exists ball; split; [ reflexivity | exact Hball ] | ].
  eexists; split; [ reflexivity | ].
  apply (round2_bounds _ 96). lra.
Qed.

(** X5: an estimator created with a frame rate that is not negative keeps,
    over any sequence of [update] calls, a window of at most five ball
    samples, none of them negative, and a moving average that is not
    negative; and every dictionary it returns has bat speed and ball speed
    between 0 and 160 and arm speed between 0 and 96. *)
Theorem speeds_stay_in_range (fps0 : R) (poses : list (pose_data image gray_image)) :
  0 <= fps0 ->
  let out := speed_run motion_contours contourArea boundingRect
               (init gray_image fps0) poses in
  estimator_wf (fst out) /\ Forall speeds_in_range (snd out).
Proof.
  intro Hfps. cbv zeta.
  assert (Hgen : forall (l : list (pose_data image gray_image)) (s : state),
            estimator_wf s ->
            estimator_wf
              (fst (speed_run motion_contours contourArea boundingRect s l)) /\
            Forall speeds_in_range
              (snd (speed_run motion_contours contourArea boundingRect s l))).
  { induction l as [|pd rest IH]; intros s Hwf.
    - cbn [speed_run fst snd]. split; [ exact Hwf | constructor ].
    - cbn [speed_run]. destruct (update_wf s pd Hwf) as [Hwf1 Hout].
      unfold update in *.
      destruct (SpeedEstimator.update motion_contours contourArea boundingRect
                  s pd) as [s1 d]. cbn [fst snd] in *.
      destruct (IH s1 Hwf1) as [Hwf2 Houts].
      destruct (speed_run motion_contours contourArea boundingRect s1 rest)
        as [s2 ds]. cbn [fst snd] in *.
      split; [ exact Hwf2 | constructor; assumption ]. }
  apply Hgen, wf_init, Hfps.
Qed.

(** X7: the two sub-estimators do not interfere: calling [_bat_speed] and
    then [_ball_speed] leaves the same state and gives the same two speeds
    as calling them the other way round. *)
Theorem bat_and_ball_commute (s : state) (w : option pixel) (g : gray_image) :
  let bat_first := ball_speed (fst (_bat_speed s w)) g in
  let ball_first := _bat_speed (fst (ball_speed s g)) w in
  fst bat_first = fst ball_first /\
  snd bat_first = snd (ball_speed s g) /\
  snd ball_first = snd (_bat_speed s w).
Proof.
  cbv zeta. unfold ball_speed, _ball_speed, _bat_speed.
  destruct w as [w|]; [ destruct (prev_wrist s) as [pw|] eqn:Hpw | ];
    cbn [fst snd prev_gray set_prev_wrist set_bat_ema];
    (destruct (prev_gray s) as [pg|];
     [ destruct (motion_contours pg g) as [|c0 rest];
       [ | cbv zeta;
           destruct (Rltb _ 5 || Rltb 300 _);
           [ | destruct (boundingRect (max_by contourArea c0 rest))
                 as [[[x y] bw] bh];
               cbn [prev_ball_center set_prev_gray set_prev_wrist set_bat_ema];
               destruct (prev_ball_center s) as [pc|] ] ] | ]);
    cbn [fst snd prev_wrist set_prev_gray set_prev_ball_center set_ball_speeds];
    rewrite ?Hpw; repeat split; reflexivity.
Qed.

End Facts.

(** X8: [max_by], the [max(contours, key=contourArea)] of [_ball_speed],
    returns an element of the list it is given, and no element of that
    list has a larger key. *)
Theorem max_by_is_largest (A : Type) (key : A -> R) (rest : list A) (best : A) :
  In (max_by key best rest) (best :: rest) /\
  forall x : A, In x (best :: rest) -> key x <= key (max_by key best rest).
Proof.
  revert best. induction rest as [|y rest IH]; intro best; cbn [max_by].
  - split; [ left; reflexivity | ]. intros x [<- | []]. lra.
  - destruct (Rlt_dec (key best) (key y)) as [Hlt|Hge].
    + destruct (IH y) as [Hin Hmax]. split.
      * right. exact Hin.
      * intros x [<- | Hx]; [ | apply Hmax; exact Hx ].
        specialize (Hmax y (or_introl eq_refl)). lra.
    + destruct (IH best) as [Hin Hmax]. split.
      * destruct Hin as [<- | Hin]; [ left; reflexivity | right; right; exact Hin ].
      * intros x [<- | [<- | Hx]].
        -- apply Hmax. left; reflexivity.
        -- specialize (Hmax best (or_introl eq_refl)). lra.
        -- apply Hmax. right; exact Hx.
Qed.

Lemma speeds_stay_in_range_witness :
  Forall speeds_in_range
    (snd (speed_run Replay.motion_contours Replay.contourArea Replay.boundingRect
            Replay.start
            [ {| pose_annotated := tt; pose_gray := Replay.ball_at_10;
                 pose_elbow := Some 0%Z; pose_knee := Some 0%Z;
                 pose_weight := "Neutral"%string; pose_wrist := Some (3, 4)%Z;
                 pose_elbow_pt := None; pose_track_id := "1"%string;
                 pose_fps := 30 |} ])).
Proof.
  apply (speeds_stay_in_range unit Replay.gray_image Replay.contour
           Replay.motion_contours Replay.contourArea Replay.boundingRect 30).
  lra.
Defined.

End SpeedMore.

(** ** Pose engine: target selection and the returned dictionary *)

Module PoseMore.

Import PoseEngine.

Local Open Scope R_scope.

(** Whatever the cosine, the angle that comes out of clamp, inverse cosine
    and conversion to degrees is cut to an integer from 0 to 180. *)
Lemma degrees_in_range (y : R) :
  (0 <= trunc (acos y * 180 / PI) <= 180)%Z.
Proof.
  apply PoseSpec.trunc_bounds; [ lia | ].
  pose proof (acos_bound y) as [H0 Hpi]. pose proof PI_RGT_0 as Hp.
  split.
  - apply Rmult_le_pos; [ lra | ]. apply Rlt_le, Rinv_0_lt_compat; exact Hp.
  - apply (Rmult_le_reg_r PI); [ exact Hp | ].
    unfold Rdiv. rewrite Rmult_assoc, Rinv_l by lra. lra.
Qed.

(** A value returned by [calculate_angle] is an angle in degrees. *)
Lemma calculate_angle_return_range (a b c : point) (n : Z) :
  calculate_angle a b c = Return n -> (0 <= n <= 180)%Z.
Proof.
  unfold calculate_angle.
  destruct (np_div _ _) as [x| | |]; cbn [np_clip np_arccos].
  - pose proof (@PoseSpec.clip_bounds x (-1) 1 ltac:(lra)) as [H1 H2].
    destruct (Rle_dec (-1) (clip x (-1) 1)); [ | lra ].
    destruct (Rle_dec (clip x (-1) 1) 1); [ | lra ].
    cbn [np_degrees py_int]. intro H. injection H as <-. apply degrees_in_range.
  - destruct (Rle_dec (-1) 1); [ | lra ]. destruct (Rle_dec 1 1); [ | lra ].
    cbn [np_degrees py_int]. intro H. injection H as <-. apply degrees_in_range.
  - destruct (Rle_dec (-1) (-1)); [ | lra ]. destruct (Rle_dec (-1) 1); [ | lra ].
    cbn [np_degrees py_int]. intro H. injection H as <-. apply degrees_in_range.
  - cbn [np_degrees py_int]. discriminate.
Qed.

Lemma extract_metrics_range (k : list point) (m : metrics) :
  extract_metrics k = Return m ->
  (0 <= m_elbow m <= 180)%Z /\ (0 <= m_knee m <= 180)%Z.
Proof.
  unfold extract_metrics.
  destruct (kpt k 6) as [p6|]; [ | discriminate ].
  destruct (kpt k 8) as [p8|]; [ | discriminate ].
  destruct (kpt k 10) as [p10|]; [ | discriminate ]. cbn [bind].
  destruct (calculate_angle p6 p8 p10) as [e|] eqn:He; [ | discriminate ].
  cbn [bind].
  destruct (kpt k 12) as [p12|]; [ | discriminate ].
  destruct (kpt k 14) as [p14|]; [ | discriminate ].
  destruct (kpt k 16) as [p16|]; [ | discriminate ]. cbn [bind].
  destruct (calculate_angle p12 p14 p16) as [kn|] eqn:Hk; [ | discriminate ].
  cbn [bind]. intro H. injection H as <-. cbn [m_elbow m_knee].
  split; eapply calculate_angle_return_range; eassumption.
Qed.

Section Facts.

Variables image gray_image : Type.
Variable cvtColor : image -> gray_image.
Variable draw_ids : image -> list detection -> option Z -> image.

Let process := process cvtColor draw_ids.

(** The two ways [process] can end: with the dictionary it started from,
    or with the metrics of the target. *)
Lemma process_cases (self : engine) (frame : image)
  (results : option (list detection)) :
  (target_lost self results /\
   exists annotated : image,
     process self frame results = fallback self annotated (cvtColor frame)) \/
  (~ target_lost self results /\
   exists (dets : list detection) (i : nat) (tid : Z) (m : metrics),
     results = Some dets /\
     select_target (target_id self) dets = Some (i, tid) /\
     extract_metrics (kpts (nth i dets (mkDetection (0, 0, 0, 0) 0 []))) = Return m /\
     process self frame results =
       {| pose_annotated := draw_ids frame dets (target_id self);
          pose_gray := cvtColor frame;
          pose_elbow := Some (m_elbow m);
          pose_knee := Some (m_knee m);
          pose_weight := m_weight m;
          pose_wrist := Some (m_wrist m);
          pose_elbow_pt := Some (m_elbow_pt m);
          pose_track_id := str_of_int tid;
          pose_fps := engine_fps self |}).
Proof.
  unfold process, PoseEngine.process, target_lost.
  destruct results as [dets|]; [ | left; split; [ exact I | eexists; reflexivity ] ].
  destruct (select_target (target_id self) dets) as [[i tid]|] eqn:Hsel.
  - destruct (extract_metrics (kpts (nth i dets (mkDetection (0, 0, 0, 0) 0 []))))
      as [m|e] eqn:Hm.
    + right. split.
      * intros [e He]. discriminate.
      * exists dets, i, tid, m.
        destruct dets as [|d ds]; [ | repeat split; try assumption; reflexivity ].
        unfold select_target in Hsel. destruct (target_id self); discriminate.
    + left. split; [ exists e; reflexivity | ].
      destruct dets as [|d ds]; eexists; reflexivity.
  - left. split; [ exact I | ].
    destruct dets as [|d ds]; eexists; reflexivity.
Qed.

(** X9: in every dictionary [process] returns, elbow and knee angle are
    present and lie between 0 and 180 degrees, and the grayscale image is
    the conversion of the frame that was passed in. *)
Theorem process_angles_in_range (self : engine) (frame : image)
  (results : option (list detection)) :
  exists e k : Z,
    pose_elbow (process self frame results) = Some e /\
    pose_knee (process self frame results) = Some k /\
    (0 <= e <= 180)%Z /\ (0 <= k <= 180)%Z /\
    pose_gray (process self frame results) = cvtColor frame.
Proof.
  destruct (process_cases self frame results)
    as [[_ [annotated ->]] | [_ (dets & i & tid & m & _ & _ & Hm & ->)]].
  - exists 0%Z, 0%Z. cbn. repeat split; lia.
  - exists (m_elbow m), (m_knee m). cbn.
    destruct (extract_metrics_range _ m Hm) as [He Hk].
    repeat split; lia.
Qed.

(** X10: [process] reports a wrist exactly when the target was found and
    its metrics were computed.  When the target is lost, the dictionary
    carries elbow and knee angle 0, weight ["Neutral"], no wrist, no elbow
    point and the track id ["Searching..."]; otherwise the track id is the
    decimal form of the target's id. *)
Theorem process_wrist_iff_target_found (self : engine) (frame : image)
  (results : option (list detection)) :
  (pose_wrist (process self frame results) = None <-> target_lost self results) /\
  (target_lost self results ->
     pose_elbow (process self frame results) = Some 0%Z /\
     pose_knee (process self frame results) = Some 0%Z /\
     pose_weight (process self frame results) = "Neutral"%string /\
     pose_elbow_pt (process self frame results) = None /\
     pose_track_id (process self frame results) = "Searching..."%string) /\
  (~ target_lost self results ->
     exists (dets : list detection) (i : nat) (tid : Z),
       results = Some dets /\
       select_target (target_id self) dets = Some (i, tid) /\
       pose_track_id (process self frame results) = str_of_int tid).
Proof.
  destruct (process_cases self frame results)
    as [[Hlost [annotated Heq]] | [Hfound (dets & i & tid & m & Hres & Hsel & Hm & Heq)]];
    rewrite Heq; cbn.
  - split; [ tauto | ]. split; [ intros _; repeat split | tauto ].
  - split; [ split; [ discriminate | tauto ] | ].
    split; [ tauto | ].
    intros _. exists dets, i, tid. repeat split; assumption.
Qed.

End Facts.

Lemma index_of_some (t : Z) (dets : list detection) :
  forall (i0 i : nat),
    index_of t i0 dets = Some i ->
    (i0 <= i)%nat /\
    (exists d, nth_error dets (i - i0) = Some d /\ track_id d = t) /\
    (forall (j : nat) (d : detection),
        (j < i - i0)%nat -> nth_error dets j = Some d -> track_id d <> t).
Proof.
  induction dets as [|d0 rest IH]; intros i0 i H; [ discriminate | ].
  cbn [index_of] in H. destruct (Z.eqb_spec (track_id d0) t) as [Heq|Hne].
  - injection H as <-. rewrite Nat.sub_diag. split; [ lia | ].
    split; [ exists d0; split; [ reflexivity | exact Heq ] | ].
    intros j d Hj. lia.
  - destruct (IH (S i0) i H) as (Hle & (d & Hd & Ht) & Hearlier).
    split; [ lia | ].
    replace (i - i0)%nat with (S (i - S i0)) by lia.
    split; [ exists d; split; assumption | ].
    intros [|j] d' Hj Hd'.
    + injection Hd' as <-. exact Hne.
    + apply (Hearlier j d'); [ lia | exact Hd' ].
Qed.

Lemma index_of_none (t : Z) (dets : list detection) (i0 : nat) :
  index_of t i0 dets = None <-> forall d, In d dets -> track_id d <> t.
Proof.
  revert i0. induction dets as [|d0 rest IH]; intro i0; cbn [index_of].
  - split; [ intros _ d [] | reflexivity ].
  - destruct (Z.eqb_spec (track_id d0) t) as [Heq|Hne].
    + split; [ discriminate | ]. intro H. exfalso.
      apply (H d0); [ left; reflexivity | exact Heq ].
    + rewrite IH. split.
      * intros H d [<- | Hin]; [ exact Hne | apply H; exact Hin ].
      * intros H d Hin. apply H. right. exact Hin.
Qed.

(** X11: with a target id configured, [select_target] finds nothing
    exactly when no subject of the frame carries that id; when it finds
    one, the index it returns is that of the first subject with the id, so
    it is in range, and the id returned is the configured one. *)
Theorem select_configured_target (t : Z) (dets : list detection) :
  (select_target (Some t) dets = None <->
   forall d, In d dets -> track_id d <> t) /\
  (forall (i : nat) (tid : Z),
      select_target (Some t) dets = Some (i, tid) ->
      tid = t /\
      (exists d, nth_error dets i = Some d /\ track_id d = t) /\
      (forall (j : nat) (d : detection),
          (j < i)%nat -> nth_error dets j = Some d -> track_id d <> t)).
Proof.
  unfold select_target. split.
  - rewrite <- (index_of_none t dets 0).
    destruct (index_of t 0 dets); split; intro H; try discriminate; reflexivity.
  - intros i tid H.
    destruct (index_of t 0 dets) as [i'|] eqn:Hidx; [ | discriminate ].
    injection H as <- <-.
    destruct (index_of_some t dets 0 i' Hidx) as (_ & Hd & Hearlier).
    rewrite Nat.sub_0_r in *. repeat split; assumption.
Qed.



Local Open Scope string_scope.

(** X15: [calculate_weight_transfer] returns ["Neutral"], ["Balanced"],
    or a percentage followed by ["% Front"] or ["% Back"], and that
    percentage is an integer from 60 to 100: a lean is never reported
    with less than 60 percent. *)
Theorem weight_transfer_outcomes (k : list point) :
  calculate_weight_transfer k = "Neutral" \/
  calculate_weight_transfer k = "Balanced" \/
  exists pct : Z,
    (60 <= pct <= 100)%Z /\
    (calculate_weight_transfer k = str_of_int pct ++ "% Front" \/
     calculate_weight_transfer k = str_of_int pct ++ "% Back").
Proof.
  destruct (nth_error k 11) as [l_hip|] eqn:H11;
    [ | left; unfold calculate_weight_transfer, weight_transfer_body, kpt;
        rewrite H11; reflexivity ].
  destruct (nth_error k 12) as [r_hip|] eqn:H12;
    [ | left; unfold calculate_weight_transfer, weight_transfer_body, kpt;
        rewrite H11, H12; reflexivity ].
  destruct (nth_error k 15) as [l_ankle|] eqn:H15;
    [ | left; unfold calculate_weight_transfer, weight_transfer_body, kpt;
        rewrite H11, H12, H15; reflexivity ].
  destruct (nth_error k 16) as [r_ankle|] eqn:H16;
    [ | left; unfold calculate_weight_transfer, weight_transfer_body, kpt;
        rewrite H11, H12, H15, H16; reflexivity ].
  right.
  rewrite (@PoseSpec.weight_transfer_present k l_hip r_hip l_ankle r_ankle
             H11 H12 H15 H16). cbv zeta.
  set (r := clip _ 0 1).
  pose proof (@PoseSpec.clip_bounds
                (((fst l_hip + fst r_hip) / 2 - Rmin (fst l_ankle) (fst r_ankle))
                 / Rabs (fst l_ankle - fst r_ankle)) 0 1 ltac:(lra)) as Hr.
  fold r in Hr.
  destruct (Rltb _ 10); [ left; reflexivity | ].
  destruct (Rltb 0.6 r) eqn:Hfront.
  - right. apply Rltb_true in Hfront. eexists; split; [ | left; reflexivity ].
    apply PoseSpec.trunc_bounds; [ lia | lra ].
  - destruct (Rltb r 0.4) eqn:Hback; [ | left; reflexivity ].
    right. apply Rltb_true in Hback. eexists; split; [ | right; reflexivity ].
    apply PoseSpec.trunc_bounds; [ lia | lra ].
Qed.

(** X16: a subject with fewer than 17 keypoints has no metrics:
    [calculate_weight_transfer] answers ["Neutral"] and [extract_metrics]
    raises, so [process] falls back to the dictionary of a lost target. *)
Theorem too_few_keypoints (k : list point) :
  (List.length k < 17)%nat ->
  calculate_weight_transfer k = "Neutral" /\
  exists e : exn, extract_metrics k = Raise e.
Proof.
  intro Hlen.
  assert (H16 : nth_error k 16 = None) by (apply nth_error_None; lia).
  split.
  - unfold calculate_weight_transfer, weight_transfer_body, kpt. rewrite H16.
    destruct (nth_error k 11); [ | reflexivity ].
    destruct (nth_error k 12); [ | reflexivity ].
    destruct (nth_error k 15); reflexivity.
  - unfold extract_metrics, kpt. rewrite H16.
    destruct (nth_error k 6); [ | eexists; reflexivity ].
    destruct (nth_error k 8); [ | eexists; reflexivity ].
    destruct (nth_error k 10); [ | eexists; reflexivity ]. cbn [bind].
    destruct (calculate_angle _ _ _); [ | eexists; reflexivity ]. cbn [bind].
    destruct (nth_error k 12); [ | eexists; reflexivity ].
    destruct (nth_error k 14); eexists; reflexivity.
Qed.

Lemma too_few_keypoints_witness :
  calculate_weight_transfer (repeat (0, 0)%R 16) = "Neutral".
Proof.
  apply (too_few_keypoints (repeat (0, 0)%R 16)). simpl. lia.
Defined.

End PoseMore.

(** ** Strings: decimal numerals and concatenation *)

Lemma append_cancel_l (p a b : string) :
  (p ++ a)%string = (p ++ b)%string -> a = b.
Proof.
  induction p as [|c p IH]; cbn [append]; intro H; [ exact H | ].
  injection H as H. apply IH. exact H.
Qed.

Lemma append_length (a b : string) :
  String.length (a ++ b) = (String.length a + String.length b)%nat.
Proof. induction a as [|c a IH]; cbn; [ reflexivity | rewrite IH; reflexivity ]. Qed.

Lemma append_cancel_r (t a : string) :
  forall b : string, (a ++ t)%string = (b ++ t)%string -> a = b.
Proof.
  induction a as [|c a IH]; intros [|c' b] H; cbn [append] in H.
  - reflexivity.
  - apply (f_equal String.length) in H. cbn in H.
    rewrite append_length in H. lia.
  - apply (f_equal String.length) in H. cbn in H.
    rewrite append_length in H. lia.
  - injection H as -> H. f_equal. apply IH. exact H.
Qed.

(** [str] of an integer can be read back: different integers have
    different numerals. *)
Lemma str_of_int_inj (n m : Z) : str_of_int n = str_of_int m -> n = m.
Proof.
  unfold str_of_int. intro H.
  apply (f_equal NilZero.int_of_string) in H.
  assert (Hok : forall z : Z,
            NilZero.int_of_string (NilZero.string_of_int (Z.to_int z))
            = Some (Z.to_int z)).
  { intro z. apply NilZero.isi; destruct z; cbn; try discriminate;
      intro Habs; injection Habs as Habs;
      exact (DecimalPos.Unsigned.to_uint_nonnil _ Habs). }
  rewrite !Hok in H. injection H as H. apply DecimalZ.to_int_inj. exact H.
Qed.

(** ** Highlight generator *)

Module HighlightMore.

Import HighlightGenerator.

Local Open Scope string_scope.

(** The directory part that [path_join] puts in front of a file name that
    is not absolute. *)
Lemma path_join_relative (dir name : string) :
  prefix "/" name = false ->
  path_join dir name =
    (if (dir =? "") || ends_with_sep dir then dir else dir ++ "/") ++ name.
Proof.
  intro H. unfold path_join. rewrite H.
  destruct ((dir =? "") || ends_with_sep dir); [ reflexivity | ].
  induction dir as [|c dir IH]; cbn [append]; [ reflexivity | ].
  f_equal. exact IH.
Qed.

Lemma clip_name_relative (shot_id : Z) : prefix "/" (clip_name shot_id) = false.
Proof. reflexivity. Qed.

(** X17: the clips of different shots never share a file: in any output
    directory, two different shot ids give two different clip paths. *)
Theorem clip_paths_distinct (dir : string) (id1 id2 : Z) :
  id1 <> id2 ->
  path_join dir (clip_name id1) <> path_join dir (clip_name id2).
Proof.
  intros Hne H. apply Hne.
  rewrite !path_join_relative in H by apply clip_name_relative.
  apply append_cancel_l in H. unfold clip_name in H.
  apply (append_cancel_l "shot_") in H.
  apply append_cancel_r in H. apply str_of_int_inj. exact H.
Qed.

Lemma clip_paths_distinct_witness :
  "highlights/Rohit_Sharma/shot_1.mp4" <> "highlights/Rohit_Sharma/shot_2.mp4".
Proof.
  apply (clip_paths_distinct "highlights/Rohit_Sharma" 1 2). discriminate.
Defined.

Section Facts.

Variable image : Type.
Variable shape : image -> Z * Z * Z.

Let save := @save image shape.

(** X18: the function [save] of highlight_generator.py never hands back
    the path of a clip.  With no frames or fewer than five it returns
    [None]; with five frames or more it raises [NameError], the module
    importing neither [os] nor [cv2], before a video writer is opened. *)
Theorem save_raises_from_five_frames (self : generator) (shot_id : Z)
  (frames : option (list image)) (fps : Z) :
  ((frames = None \/
    exists l, frames = Some l /\ (List.length l < 5)%nat) ->
   save self shot_id frames fps = Return None) /\
  (forall l : list image,
      frames = Some l -> (5 <= List.length l)%nat ->
      save self shot_id frames fps = Raise NameError) /\
  (forall path : string, save self shot_id frames fps <> Return (Some path)).
Proof.
  assert (Hlong : forall l : list image,
             (5 <= List.length l)%nat ->
             save self shot_id (Some l) fps = Raise NameError).
  { intros [|first others] Hlen; [ cbn in Hlen; lia | ].
    unfold save, HighlightGenerator.save.
    destruct (Nat.ltb_spec (List.length (first :: others)) min_frames) as [Hlt|_];
      [ unfold min_frames in Hlt; lia | ].
    destruct (shape first) as [[h w] ch]. reflexivity. }
  assert (Hshort : forall l : list image,
             (List.length l < 5)%nat ->
             save self shot_id (Some l) fps = Return None).
  { intros [|first others] Hlen; [ reflexivity | ].
    unfold save, HighlightGenerator.save.
    destruct (Nat.ltb_spec (List.length (first :: others)) min_frames) as [_|Hge];
      [ reflexivity | unfold min_frames in Hge; lia ]. }
  split; [ | split ].
  - intros [-> | (l & -> & Hlen)]; [ reflexivity | exact (Hshort l Hlen) ].
  - intros l -> Hlen. exact (Hlong l Hlen).
  - intros path. destruct frames as [l|]; [ | discriminate ].
    destruct (Nat.lt_ge_cases (List.length l) 5) as [Hlt|Hge].
    + rewrite (Hshort l Hlt). discriminate.
    + rewrite (Hlong l Hge). discriminate.
Qed.

End Facts.

End HighlightMore.

(** ** Logger *)

Module LoggerMore.

Import CSVLogger.

Lemma append_row_same (disk : logs) (name : string) (r : row) :
  append_row disk name r name = Some (get_or (disk name) [] ++ [r]).
Proof. unfold append_row. rewrite String.eqb_refl. reflexivity. Qed.

Lemma append_row_other (disk : logs) (name p : string) (r : row) :
  p <> name -> append_row disk name r p = disk p.
Proof.
  intro H. unfold append_row. apply String.eqb_neq in H. rewrite H. reflexivity.
Qed.

Lemma writes_append (self : logger) (entries : list entry) :
  forall (disk : logs) (rows : list row),
    disk (filename self) = Some rows ->
    fold_left (write_entry self) entries disk (filename self)
    = Some (rows ++ map entry_row entries) /\
    forall p, p <> filename self ->
      fold_left (write_entry self) entries disk p = disk p.
Proof.
  induction entries as [|e rest IH]; intros disk rows Hrows; cbn [fold_left map].
  - rewrite app_nil_r. split; [ exact Hrows | reflexivity ].
  - destruct (IH (write_entry self disk e) (rows ++ [entry_row e])) as [H1 H2].
    + unfold write_entry, write. rewrite append_row_same, Hrows. reflexivity.
    + rewrite <- app_assoc in H1. split; [ exact H1 | ].
      intros p Hp. rewrite (H2 p Hp).
      unfold write_entry, write. apply append_row_other. exact Hp.
Qed.

Lemma session_rows (disk : logs) (name : string) (entries : list entry) :
  session disk name entries name =
    Some (match disk name with
          | None => [header]
          | Some rows => rows
          end ++ map entry_row entries) /\
  forall p, p <> name -> session disk name entries p = disk p.
Proof.
  unfold session, init.
  set (self := {| filename := name |}).
  destruct (disk name) as [rows|] eqn:Hdisk; cbn [negb].
  - destruct (writes_append self entries (open_append disk name) rows) as [H1 H2].
    + unfold open_append. cbn [filename self]. rewrite String.eqb_refl, Hdisk.
      reflexivity.
    + split; [ exact H1 | ]. intros p Hp. rewrite (H2 p Hp).
      unfold open_append. apply String.eqb_neq in Hp. rewrite Hp. reflexivity.
  - destruct (writes_append self entries
                (append_row (open_append disk name) name header) [header])
      as [H1 H2].
    + cbn [filename self]. rewrite append_row_same. unfold open_append.
      rewrite String.eqb_refl, Hdisk. reflexivity.
    + split; [ exact H1 | ]. intros p Hp. rewrite (H2 p Hp).
      rewrite append_row_other by exact Hp.
      unfold open_append. apply String.eqb_neq in Hp. rewrite Hp. reflexivity.
Qed.

(** X19: over any number of sessions on the same file name, each
    creating a logger and writing its rows, the file holds what it held
    before the first session, or the header alone if it did not exist,
    followed by one row per [write] call in the order of the calls: the
    header is written once at most and nothing is ever rewritten.  Other
    files are not touched. *)
Theorem log_is_append_only (name : string) (runs : list (list entry)) :
  forall disk : logs,
    runs <> [] ->
    sessions disk name runs name =
      Some (match disk name with
            | None => [header]
            | Some rows => rows
            end ++ List.concat (map (map entry_row) runs)) /\
    forall p, p <> name -> sessions disk name runs p = disk p.
Proof.
  induction runs as [|entries rest IH]; intros disk Hne; [ congruence | ].
  cbn [sessions map List.concat].
  destruct (session_rows disk name entries) as [Hs Hother].
  destruct rest as [|next rest'].
  - cbn [sessions map List.concat]. rewrite app_nil_r. split; assumption.
  - destruct (IH (session disk name entries) ltac:(discriminate)) as [H1 H2].
    rewrite Hs in H1. rewrite <- app_assoc in H1.
    split; [ exact H1 | ].
    intros p Hp. rewrite (H2 p Hp). apply Hother. exact Hp.
Qed.

Lemma log_is_append_only_witness :
  let e := fun (fid : Z) =>
    {| e_now := "2024-01-01T10:00:00"; e_frame_id := fid; e_timestamp := 0;
       e_shot := {| entry_id := Some 0%Z; entry_phase := Some "Backlift"%string |};
       e_elbow := Some 160%Z; e_knee := Some 170%Z;
       e_speed := {| speed_bat := Some 0%R; speed_ball := Some 0%R;
                     speed_arm := Some 0%R |};
       e_feedback := Some "Good control"%string |} in
  sessions no_logs default_filename [[e 0%Z]; [e 0%Z; e 1%Z]] default_filename
  = Some [header; entry_row (e 0%Z); entry_row (e 0%Z); entry_row (e 1%Z)].
Proof.
  intro e.
  destruct (log_is_append_only default_filename [[e 0%Z]; [e 0%Z; e 1%Z]] no_logs)
    as [H _].
  - discriminate.
  - exact H.
Defined.

End LoggerMore.

(** ** The engine: construction and one frame through all components *)

Module EngineMore.

Import CricketEngine.

Local Open Scope string_scope.

Lemma round2_zero : round2 0 = 0%R.
Proof. rewrite (@round2_near 0 0) by lra. lra. Qed.

Section Facts.

Variables image gray_image contour : Type.
Variable cvtColor : image -> gray_image.
Variable draw_ids : image -> list PoseEngine.detection -> option Z -> image.
Variable motion_contours : gray_image -> gray_image -> list contour.
Variable contourArea : contour -> R.
Variable boundingRect : contour -> Z * Z * Z * Z.

Let engine := engine image gray_image.
Let process_frame :=
  @process_frame image gray_image contour cvtColor draw_ids motion_contours
    contourArea boundingRect.
Let pose_of (self : engine) (inp : frame_input image) :=
  PoseEngine.process cvtColor draw_ids (pose_engine self)
    (in_frame inp) (in_results inp).

(** Elbow and knee angle of any dictionary of [process]. *)
Lemma pose_angles (self : engine) (inp : frame_input image) :
  exists e k : Z,
    pose_elbow (pose_of self inp) = Some e /\
    pose_knee (pose_of self inp) = Some k /\
    (0 <= e <= 180)%Z /\ (0 <= k <= 180)%Z.
Proof.
  unfold pose_of.
  destruct (PoseMore.process_cases image gray_image cvtColor draw_ids
              (pose_engine self) (in_frame inp) (in_results inp))
    as [[_ [annotated ->]] | [_ (dets & i & tid & m & _ & _ & Hm & ->)]].
  - exists 0%Z, 0%Z. cbn. repeat split; lia.
  - exists (PoseEngine.m_elbow m), (PoseEngine.m_knee m). cbn.
    destruct (PoseMore.extract_metrics_range _ m Hm) as [He Hk].
    repeat split; lia.
Qed.

(** What the segmenter answers on a frame that ends a shot, and on one
    that does not. *)
Lemma update_ends_shot (self : engine) (inp : frame_input image) (fid : Z) :
  let r := ShotSegmenter.update (segmenter self) (pose_of self inp) fid in
  ShotSegmenter.ended (snd r)
    = ends_shot (segmenter self) (ShotSegmenter.elbow_of (pose_of self inp)) /\
  (ShotSegmenter.ended (snd r) = true ->
   ShotSegmenter.current_shot (fst r) = None /\
   ShotSegmenter.frame_buffer (fst r) = []).
Proof.
  cbv zeta. unfold ends_shot.
  destruct (ShotSegmenter.current_shot (segmenter self)) as [sh|] eqn:Hcur.
  - destruct (Z.leb_spec (ShotSegmenter.elbow_of (pose_of self inp)) 90)
      as [Hle|Hgt].
    + rewrite (@SegmenterSpec.update_end image gray_image (segmenter self)
                 (pose_of self inp) fid sh Hcur)
        by (apply SegmenterSpec.detect_phase_follow; exact Hle).
      cbn. auto.
    + rewrite (@SegmenterSpec.update_active image gray_image (segmenter self)
                 (pose_of self inp) fid sh Hcur)
        by (rewrite SegmenterSpec.detect_phase_follow; lia).
      cbn. split; [ reflexivity | discriminate ].
  - destruct (SegmenterMore.update_cases image gray_image (segmenter self)
                (pose_of self inp) fid)
      as [_ _ Heq|_ Heq|sh Habs _|sh Habs _]; try congruence; rewrite Heq;
      cbn; (split; [ reflexivity | discriminate ]).
Qed.

(** X20: the engine cannot be constructed.  Whatever log files there
    are, [CricketEngine()] raises [NameError], from the constructor of the
    highlight generator.  By then the logger has opened the log file: a
    file that did not exist holds the header, a file that existed is as it
    was, and so is every other file. *)
Theorem engine_construction_fails (disk : CSVLogger.logs) :
  let out := @init image gray_image disk in
  snd out = Raise NameError /\
  fst out CSVLogger.default_filename =
    Some (match disk CSVLogger.default_filename with
          | None => [CSVLogger.header]
          | Some old => old
          end) /\
  forall name : string,
    name <> CSVLogger.default_filename -> fst out name = disk name.
Proof.
  cbv zeta. unfold init, CSVLogger.init. cbn [fst snd].
  split; [ reflexivity | ]. split.
  - destruct (disk CSVLogger.default_filename) as [old|] eqn:Hold; cbn [negb].
    + unfold CSVLogger.open_append. rewrite String.eqb_refl, Hold. reflexivity.
    + rewrite LoggerMore.append_row_same. unfold CSVLogger.open_append.
      rewrite String.eqb_refl, Hold. reflexivity.
  - intros name Hname. apply String.eqb_neq in Hname.
    destruct (disk CSVLogger.default_filename) as [old|]; cbn [negb];
      unfold CSVLogger.append_row, CSVLogger.open_append; rewrite ?Hname;
      reflexivity.
Qed.

(** X21: what [process_frame] does on an engine object, frame by frame.
    On a frame that ends the active shot, one with an elbow angle of at
    most 90 while a shot is active, it raises [AttributeError]: no row is
    logged and the frame counter stays, while the segmenter has already
    closed the shot and emptied its buffer, so the frames of the shot are
    gone.  On every other frame it returns the annotated frame and the
    interface record, with no highlight in it, counts the frame, and
    appends one row to the log: the frame's id and clock reading, elbow
    and knee angle between 0 and 180, and the shot id, phase, speeds and
    feedback of the interface record. *)
Theorem process_frame_raises_when_shot_ends (disk : CSVLogger.logs)
  (self : engine) (inp : frame_input image) (fid_arg : option Z) :
  let out := process_frame disk self inp fid_arg in
  let disk' := fst (fst out) in
  let self' := snd (fst out) in
  let pose := pose_of self inp in
  if ends_shot (segmenter self) (ShotSegmenter.elbow_of pose) then
    snd out = Raise AttributeError /\
    disk' = disk /\
    frame_id self' = frame_id self /\
    ShotSegmenter.current_shot (segmenter self') = None /\
    ShotSegmenter.frame_buffer (segmenter self') = []
  else
    exists (ui : ui_data) (elbow knee : Z),
      snd out = Return (pose_annotated pose, ui) /\
      ui_highlight ui = None /\
      frame_id self' = (frame_id self + 1)%Z /\
      (0 <= elbow <= 180)%Z /\ (0 <= knee <= 180)%Z /\
      disk' = CSVLogger.append_row disk (CSVLogger.filename (logger self))
                (ui_row (in_now inp) (get_or fid_arg (frame_id self))
                   elbow knee ui).
Proof.
  cbv zeta.
  set (fid := get_or fid_arg (frame_id self)).
  destruct (update_ends_shot self inp fid) as [Hended Hclosed].
  cbv zeta in Hended, Hclosed.
  destruct (pose_angles self inp) as (e & k & He & Hk & Hre & Hrk).
  unfold process_frame, CricketEngine.process_frame.
  fold (pose_of self inp). fold fid.
  destruct (ShotSegmenter.update (segmenter self) (pose_of self inp) fid)
    as [seg1 shot].
  cbn [fst snd] in Hended, Hclosed.
  destruct (SpeedEstimator.update _ _ _ _ _) as [speed1 speed_d].
  rewrite <- Hended.
  destruct (ShotSegmenter.ended shot).
  - destruct (Hclosed eq_refl) as [Hnone Hempty].
    cbn. repeat split; assumption.
  - cbn [HighlightGenerator.save_attribute fst snd frame_id].
    eexists _, e, k.
    split; [ reflexivity | ]. split; [ reflexivity | ].
    split; [ reflexivity | ]. split; [ exact Hre | ]. split; [ exact Hrk | ].
    unfold CSVLogger.write, CSVLogger.build_row, ui_row.
    cbn [get_or ui_shot ui_phase ui_bat_speed ui_ball_speed ui_arm_speed
         ui_feedback CSVLogger.entry_id CSVLogger.entry_phase].
    rewrite He, Hk. reflexivity.
Qed.

(** X23: a frame on which the target is lost.  While a shot is active it
    ends the shot, and [process_frame] raises [AttributeError].  While no
    shot is active, whatever the thresholds of the coach and the history
    of the speed estimator, the interface gets bat speed 0, arm speed 0,
    track id ["Searching..."], weight ["Neutral"] and the fallback
    feedback of the coach: missing data triggers none of the corrective
    rules. *)
Theorem lost_target_frame (disk : CSVLogger.logs) (self : engine)
  (inp : frame_input image) (fid_arg : option Z) :
  PoseEngine.target_lost (pose_engine self) (in_results inp) ->
  estimator_wf (speed self) ->
  let out := process_frame disk self inp fid_arg in
  match ShotSegmenter.current_shot (segmenter self) with
  | Some _ => snd out = Raise AttributeError
  | None =>
      exists (annotated : image) (ui : ui_data),
        snd out = Return (annotated, ui) /\
        ui_feedback ui = Coach.msg_default /\
        ui_bat_speed ui = 0%R /\
        ui_arm_speed ui = 0%R /\
        ui_track_id ui = "Searching..." /\
        ui_weight ui = "Neutral"
  end.
Proof.
  intros Hlost Hwf. cbv zeta.
  set (fid := get_or fid_arg (frame_id self)).
  destruct (update_ends_shot self inp fid) as [Hended _].
  cbv zeta in Hended. unfold ends_shot in Hended.
  unfold process_frame, CricketEngine.process_frame.
  fold (pose_of self inp) in *. fold fid.
  destruct (@PipelineSpec.process_lost_target image gray_image cvtColor draw_ids
              (pose_engine self) (in_frame inp) (in_results inp) Hlost)
    as [annotated Hpose].
  fold (pose_of self inp) in Hpose.
  assert (Helbow : ShotSegmenter.elbow_of (pose_of self inp) = 0%Z)
    by (rewrite Hpose; reflexivity).
  rewrite Helbow in Hended.
  destruct (ShotSegmenter.update (segmenter self) (pose_of self inp) fid)
    as [seg1 shot].
  cbn [snd] in Hended. rewrite Hpose.
  unfold SpeedEstimator.update.
  cbn [pose_wrist pose_gray PoseEngine.fallback].
  change (SpeedEstimator._bat_speed (speed self) None)
    with (SpeedEstimator.set_prev_wrist (speed self) None, 0%R).
  assert (Hwf1 : estimator_wf (SpeedEstimator.set_prev_wrist (speed self) None)).
  { exact (proj1 (SpeedMore.bat_speed_wf gray_image (speed self) None Hwf)). }
  destruct (SpeedMore.ball_speed_wf gray_image contour motion_contours
              contourArea boundingRect _ (cvtColor (in_frame inp)) Hwf1)
    as [_ [Hball _]].
  destruct (SpeedEstimator._ball_speed _ _ _ _ _) as [speed2 ball].
  cbn [snd] in Hball.
  replace (0 * 0.6)%R with 0%R by lra. rewrite round2_zero.
  rewrite Hended.
  destruct (ShotSegmenter.current_shot (segmenter self)) as [sh|];
    [ reflexivity | ].
  cbn [HighlightGenerator.save_attribute snd].
  eexists _, _. split; [ reflexivity | ].
  cbn [ui_feedback ui_bat_speed ui_arm_speed ui_track_id ui_weight
       speed_bat speed_arm get_or pose_track_id pose_weight].
  split; [ | repeat split ].
  unfold Coach.evaluate, Coach.read.
  cbn [pose_elbow pose_knee speed_bat speed_arm speed_ball get_or].
  unfold Coach.bat_rule, Coach.elbow_rule, Coach.knee_rule, Coach.arm_rule,
    Coach.ball_rule, Coach.excellent_rule.
  cbn [Coach.bat_speed Coach.elbow Coach.knee Coach.arm_speed Coach.ball_speed].
  rewrite truthy_float_zero. cbn [andb truthy_int Z.eqb negb].
  rewrite (proj2 (Rltb_false ball (0 * 0.7))) by lra.
  rewrite andb_false_r.
  assert (H80 : Rleb 80 0 = false)
    by (unfold Rleb; destruct (Rle_dec 80 0); [ lra | reflexivity ]).
  rewrite H80. reflexivity.
Qed.

End Facts.

Lemma lost_target_frame_witness :
  exists (annotated : unit) (ui : ui_data),
    snd (@process_frame unit SpeedEstimator.Replay.gray_image
           SpeedEstimator.Replay.contour
           (fun _ => SpeedEstimator.Replay.still) (fun f _ _ => f)
           SpeedEstimator.Replay.motion_contours
           SpeedEstimator.Replay.contourArea
           SpeedEstimator.Replay.boundingRect
           CSVLogger.no_logs replay_engine replay_frame (Some 0%Z))
      = Return (annotated, ui) /\
    ui_feedback ui = Coach.msg_default /\
    ui_bat_speed ui = 0%R /\
    ui_arm_speed ui = 0%R /\
    ui_track_id ui = "Searching..." /\
    ui_weight ui = "Neutral".
Proof.
  apply (lost_target_frame unit SpeedEstimator.Replay.gray_image
           SpeedEstimator.Replay.contour
           (fun _ => SpeedEstimator.Replay.still) (fun f _ _ => f)
           SpeedEstimator.Replay.motion_contours
           SpeedEstimator.Replay.contourArea
           SpeedEstimator.Replay.boundingRect
           CSVLogger.no_logs replay_engine replay_frame (Some 0%Z)).
  - exact I.
  - unfold estimator_wf; simpl.
    repeat split; try lra; try discriminate; try constructor. lia.
Defined.

End EngineMore.

(** ** The pacing of the worker *)

Module WorkerMore.

Import VideoWorker.

Local Open Scope R_scope.

(** X24: the pause between two frames is at least 1 and at most 1000
    milliseconds whatever frame rate is asked for; for a rate from 1 to
    1000 frames a second it is within half a millisecond of 1000 divided
    by the rate, which for the 5 to 60 frames a second that the window
    offers means 17 to 200 milliseconds; for a rate of 1 or less it is
    1000, and for a rate above 2000 it is 1. *)
Theorem frame_delay_bounds (fps : Z) :
  (1 <= frame_delay_ms fps <= 1000)%Z /\
  ((1 <= fps <= 1000)%Z ->
   - (1 / 2) <= IZR (frame_delay_ms fps) - 1000 / IZR fps <= 1 / 2) /\
  ((5 <= fps <= 60)%Z -> (17 <= frame_delay_ms fps <= 200)%Z) /\
  ((fps <= 1)%Z -> frame_delay_ms fps = 1000%Z) /\
  ((2000 < fps)%Z -> frame_delay_ms fps = 1%Z).
Proof.
  unfold frame_delay_ms.
  assert (Hm : (1 <= Z.max 1 fps)%Z) by lia.
  assert (Hpos : 1 <= IZR (Z.max 1 fps)) by (apply IZR_le; exact Hm).
  assert (Hq : 0 < 1000 / IZR (Z.max 1 fps) <= 1000).
  { split.
    - apply Rdiv_lt_0_compat; lra.
    - apply (Rmult_le_reg_r (IZR (Z.max 1 fps))); [ lra | ].
      unfold Rdiv. rewrite Rmult_assoc, Rinv_l by lra. nra. }
  pose proof (SpeedMore.rint_bounds (1000 / IZR (Z.max 1 fps)) 0 1000
                ltac:(lra)) as Hr.
  split; [ lia | ]. split; [ | split; [ | split ] ].
  2:{ intros [H1 H2]. replace (Z.max 1 fps) with fps in * by lia.
      apply IZR_le in H1, H2.
      assert (Hlo : 50 / 3 <= 1000 / IZR fps).
      { apply (Rmult_le_reg_r (IZR fps)); [ lra | ].
        unfold Rdiv at 2. rewrite Rmult_assoc, Rinv_l by lra. lra. }
      assert (Hhi : 1000 / IZR fps <= 200).
      { apply (Rmult_le_reg_r (IZR fps)); [ lra | ].
        unfold Rdiv. rewrite Rmult_assoc, Rinv_l by lra. lra. }
      pose proof (SpeedMore.rint_bounds (1000 / IZR fps) 16 200 ltac:(lra)) as Hb.
      pose proof (SpeedMore.rint_close (1000 / IZR fps)) as Hc.
      assert (H17 : (16 < rint (1000 / IZR fps))%Z) by (apply lt_IZR; lra).
      lia. }
  - intros [H1 H2]. replace (Z.max 1 fps) with fps in * by lia.
    assert (Hge : 1 <= 1000 / IZR fps).
    { apply (Rmult_le_reg_r (IZR fps)); [ lra | ].
      unfold Rdiv. rewrite Rmult_assoc, Rinv_l by lra.
      apply IZR_le in H2. lra. }
    pose proof (SpeedMore.rint_bounds (1000 / IZR fps) 1 1000 ltac:(lra)) as Hr1.
    rewrite Z.max_r by lia. apply SpeedMore.rint_close.
  - intro H. replace (Z.max 1 fps) with 1%Z by lia.
    replace (1000 / 1) with (IZR 1000) by lra.
    rewrite (@rint_near (IZR 1000) 1000) by lra. reflexivity.
  - intro H. replace (Z.max 1 fps) with fps by lia.
    assert (Hbig : 2000 < IZR fps) by (apply IZR_lt in H; exact H).
    assert (Hsmall : 1000 / IZR fps < 1 / 2).
    { apply (Rmult_lt_reg_r (IZR fps)); [ lra | ].
      unfold Rdiv at 1. rewrite Rmult_assoc, Rinv_l by lra. lra. }
    replace (Z.max 1 fps) with fps in Hq by lia.
    rewrite (@rint_near (1000 / IZR fps) 0) by lra. reflexivity.
Qed.

End WorkerMore.

(** ** Coach: when praise is given *)

Module CoachMore.

Import Coach.

Local Open Scope R_scope.

Section Facts.

Variables image gray_image : Type.

(** X25: with the thresholds of the constructor, the coach praises the
    shot only when bat speed is at least 80, elbow angle at least 140 and
    knee angle at least 150; and it does praise such a shot when arm speed
    and ball speed are not measured (zero).  The comparisons involved are
    between a reading and a whole number. *)
Theorem praise_only_when_all_good (pd : pose_data image gray_image)
  (sd : speed_data) :
  let v := read pd sd in
  (feedback (evaluate init pd sd) = msg_excellent ->
   80 <= bat_speed v /\ (140 <= elbow v)%Z /\ (150 <= knee v)%Z) /\
  (80 <= bat_speed v -> (140 <= elbow v)%Z -> (150 <= knee v)%Z ->
   arm_speed v = 0 -> ball_speed v = 0 ->
   feedback (evaluate init pd sd) = msg_excellent).
Proof.
  cbv zeta. unfold evaluate. set (v := read pd sd).
  unfold bat_rule, elbow_rule, knee_rule, arm_rule, ball_rule, excellent_rule.
  cbn [MIN_BAT_SPEED MIN_ELBOW_ANGLE MIN_KNEE_ANGLE init].
  split.
  - destruct (truthy_float (bat_speed v) && Rltb (bat_speed v) 60);
      [ discriminate | ].
    destruct (truthy_int (elbow v) && (elbow v <? 120)%Z); [ discriminate | ].
    destruct (truthy_int (knee v) && (knee v <? 140)%Z); [ discriminate | ].
    destruct (truthy_float (arm_speed v) && Rltb (arm_speed v) (bat_speed v * 0.6));
      [ discriminate | ].
    destruct (truthy_float (ball_speed v) && Rltb (ball_speed v) (bat_speed v * 0.7));
      [ discriminate | ].
    destruct (Rleb 80 (bat_speed v) && (elbow v >=? 140)%Z && (knee v >=? 150)%Z)
      eqn:Hex; [ | discriminate ].
    intros _. apply andb_prop in Hex. destruct Hex as [Hex Hk].
    apply andb_prop in Hex. destruct Hex as [Hb He].
    apply Rleb_true in Hb. rewrite Z.geb_le in He, Hk.
    repeat split; assumption.
  - intros Hb He Hk Harm Hball.
    rewrite (proj2 (Rltb_false (bat_speed v) 60)) by lra.
    rewrite andb_false_r.
    assert (Hel : (elbow v <? 120)%Z = false) by (apply Z.ltb_ge; lia).
    assert (Hkn : (knee v <? 140)%Z = false) by (apply Z.ltb_ge; lia).
    rewrite Hel, Hkn, !andb_false_r, Harm, Hball, truthy_float_zero.
    cbn [andb].
    rewrite (proj2 (Rleb_true 80 (bat_speed v)) Hb).
    rewrite (proj2 (Z.geb_le _ _) He), (proj2 (Z.geb_le _ _) Hk). reflexivity.
Qed.

End Facts.

End CoachMore.
